(** * Three-body simulation: the integrator and its trail buffer

    A shallow embedding of [src/script.js]: [createBodiesFromControls]
    (body construction from the form fields) and [updatePhysics] (one
    integration step with its circular trail buffer), together with the
    [THREE.Vector3] methods they call.

    JavaScript numbers are IEEE-754 binary64 values.  The program is embedded
    once, over an interface [Num] of the number operations it uses, and the
    interface is instantiated twice: by Rocq's primitive binary64 floats
    (what the script computes with) and by the real numbers (the exact
    arithmetic its formulas are read in). *)

From Stdlib Require Import ZArith QArith Reals Lra Ascii String DecimalString.
From Stdlib Require Import Floats SpecFloat.
From stdpp Require Import base list.

Close Scope Q_scope.
Close Scope R_scope.
Close Scope string_scope.
Open Scope nat_scope.

Set Warnings "-inexact-float".

(* ===================================================================== *)
(** ** Numbers *)
(* ===================================================================== *)

(** The operations of a JavaScript number that the script uses. *)
Class Num (num : Type) := {
  nadd : num -> num -> num;          (* x + y *)
  nsub : num -> num -> num;          (* x - y *)
  nmul : num -> num -> num;          (* x * y *)
  ndiv : num -> num -> num;          (* x / y *)
  nsqrt : num -> num;                (* Math.sqrt(x) *)
  nltb : num -> num -> bool;         (* x < y *)
  truthy : num -> bool;              (* ToBoolean(x), as tested by || *)
  fround : num -> num;               (* the value an element of a
                                        Float32Array holds after x is stored *)
  lit : Q -> num                     (* a decimal literal of the script *)
}.

Declare Scope num_scope.
Delimit Scope num_scope with num.
Infix "[+]" := nadd (at level 50, left associativity) : num_scope.
Infix "[-]" := nsub (at level 50, left associativity) : num_scope.
Infix "[*]" := nmul (at level 40, left associativity) : num_scope.
Infix "[/]" := ndiv (at level 40, left associativity) : num_scope.
Infix "[<]" := nltb (at level 70, no associativity) : num_scope.
Open Scope num_scope.

(** [x || y] on numbers: [y] is only evaluated when [x] is falsy. *)
Definition orElse {num} `{Num num} (x y : num) : num :=
  if truthy x then x else y.

(** *** binary64: the numbers of the script *)

Module F64.

(** Storing into a [Float32Array] rounds to binary32 (round to nearest,
    ties to even); the element read back is that binary32 value. *)
Definition to_binary32 (x : float) : float :=
  match Prim2SF x with
  | S754_finite s m e =>
      SF2Prim (binary_normalize 24 128 (if s then Z.neg m else Z.pos m) e s)
  | _ => x
  end.

Definition of_Z (z : Z) : float :=
  match z with
  | Z0 => PrimFloat.zero
  | Z.pos p => PrimFloat.of_uint63 (Uint63.of_Z (Z.pos p))
  | Z.neg p => PrimFloat.opp (PrimFloat.of_uint63 (Uint63.of_Z (Z.pos p)))
  end.

(** A literal [n/d] with [n] and [d] below 2^53 is the correctly rounded
    quotient of two exact integers, which is how the literal is read. *)
Definition of_Q (q : Q) : float :=
  PrimFloat.div (of_Z (Qnum q)) (of_Z (Z.pos (Qden q))).

(** [ToBoolean]: a number is falsy when it is +0, -0 or NaN. *)
Definition to_boolean (x : float) : bool :=
  negb (PrimFloat.is_zero x || PrimFloat.is_nan x).

#[global] Instance binary64 : Num float := {|
  nadd := PrimFloat.add;
  nsub := PrimFloat.sub;
  nmul := PrimFloat.mul;
  ndiv := PrimFloat.div;
  nsqrt := PrimFloat.sqrt;
  nltb := PrimFloat.ltb;
  truthy := to_boolean;
  fround := to_binary32;
  lit := of_Q
|}.

End F64.

(** *** Exact arithmetic: the real numbers *)

Module Exact.

Definition Rltb (x y : R) : bool := if Rlt_dec x y then true else false.
Definition Rtruthy (x : R) : bool := if Req_dec_T x 0%R then false else true.

#[global] Instance reals : Num R := {|
  nadd := Rplus;
  nsub := Rminus;
  nmul := Rmult;
  ndiv := Rdiv;
  nsqrt := R_sqrt.sqrt;
  nltb := Rltb;
  truthy := Rtruthy;
  fround := fun x => x;
  lit := Q2R
|}.

End Exact.

(* ===================================================================== *)
(** ** THREE.Vector3 *)
(* ===================================================================== *)

Record Vector3 (num : Type) := mkVector3 { vx : num; vy : num; vz : num }.
Arguments mkVector3 {num} _ _ _.
Arguments vx {num} _.
Arguments vy {num} _.
Arguments vz {num} _.

Section Vector3.
Context {num : Type} `{Num num}.

(** [new THREE.Vector3().subVectors(a, b)] *)
Definition subVectors (a b : Vector3 num) : Vector3 num :=
  mkVector3 (vx a [-] vx b) (vy a [-] vy b) (vz a [-] vz b).

(** [v.add(w)] *)
Definition add (v w : Vector3 num) : Vector3 num :=
  mkVector3 (vx v [+] vx w) (vy v [+] vy w) (vz v [+] vz w).

(** [v.multiplyScalar(s)] *)
Definition multiplyScalar (v : Vector3 num) (s : num) : Vector3 num :=
  mkVector3 (vx v [*] s) (vy v [*] s) (vz v [*] s).

(** [v.divideScalar(s)] is [v.multiplyScalar(1 / s)]. *)
Definition divideScalar (v : Vector3 num) (s : num) : Vector3 num :=
  multiplyScalar v (lit 1%Q [/] s).

(** [v.lengthSq()] *)
Definition lengthSq (v : Vector3 num) : num :=
  vx v [*] vx v [+] vy v [*] vy v [+] vz v [*] vz v.

(** [v.length()] *)
Definition length3 (v : Vector3 num) : num := nsqrt (lengthSq v).

(** [v.normalize()] is [v.divideScalar(v.length() || 1)]. *)
Definition normalize (v : Vector3 num) : Vector3 num :=
  divideScalar v (orElse (length3 v) (lit 1%Q)).

(** The coordinates as a [Float32Array] holds them. *)
Definition stored (v : Vector3 num) : Vector3 num :=
  mkVector3 (fround (vx v)) (fround (vy v)) (fround (vz v)).

End Vector3.

(* ===================================================================== *)
(** ** Float32Array *)
(* ===================================================================== *)

Section Float32Array.
Context {num : Type} `{Num num}.

(** [new Float32Array(n)]: [n] elements, all zero. *)
Definition Float32Array (n : nat) : list num := replicate n (lit 0%Q).

(** [a[i] = x]: the element takes the binary32 rounding of [x]; a store
    outside the array is ignored. *)
Definition f32_set (a : list num) (i : nat) (x : num) : list num :=
  <[i := fround x]> a.

(** [dst[k] = src[i]] between two arrays of the same length.  (A read
    outside [src] would yield [undefined]; with the index computations of
    the script it happens only where the store is outside [dst] too.) *)
Definition f32_copy (src : list num) (i : nat) (dst : list num) (k : nat)
  : list num :=
  match src !! i with
  | Some x => f32_set dst k x
  | None => dst
  end.

(** The point held in elements [3k], [3k+1], [3k+2]. *)
Definition pointAt (a : list num) (k : nat) : Vector3 num :=
  mkVector3 (nth (k * 3) a (lit 0%Q))
            (nth (k * 3 + 1) a (lit 0%Q))
            (nth (k * 3 + 2) a (lit 0%Q)).

End Float32Array.

(* ===================================================================== *)
(** ** Bodies *)
(* ===================================================================== *)

(** An element of [bodies].  [position] is [mesh.position]; [displayPositions]
    is [trail.geometry.attributes.position.array], the array that is drawn.
    The mesh's geometry, material and colour do not enter the simulation. *)
Record Body (num : Type) := mkBody {
  position : Vector3 num;
  velocity : Vector3 num;
  mass : num;
  displayPositions : list num;
  trailPoints : list num;
  trailIndex : nat;
  trailPointsCount : nat
}.
Arguments mkBody {num} _ _ _ _ _ _ _.
Arguments position {num} _.
Arguments velocity {num} _.
Arguments mass {num} _.
Arguments displayPositions {num} _.
Arguments trailPoints {num} _.
Arguments trailIndex {num} _.
Arguments trailPointsCount {num} _.

(** What the script obtains from its host: the [Math] object, [parseFloat]
    and the form fields ([document.getElementById(id).value]). *)
Record Host (num : Type) := mkHost {
  Math_random : nat -> num;      (* the value of the n-th call of Math.random()
                                    that the script makes itself *)
  Math_sin : num -> num;
  Math_cos : num -> num;
  Math_acos : num -> num;
  Math_PI : num;
  parseFloat : string -> num;
  fieldValue : string -> string
}.
Arguments mkHost {num} _ _ _ _ _ _ _.
Arguments Math_random {num} _ _.
Arguments Math_sin {num} _ _.
Arguments Math_cos {num} _ _.
Arguments Math_acos {num} _ _.
Arguments Math_PI {num} _.
Arguments parseFloat {num} _ _.
Arguments fieldValue {num} _ _.

(** Computations that call [Math.random()]: the state is the number of calls
    the script has made so far.  (three.js draws from the same generator when
    it builds an object; those calls are not the script's and are not
    counted.) *)
Definition Rand (A : Type) : Type := nat -> A * nat.

Definition ret {A} (a : A) : Rand A := fun n => (a, n).
Definition bind {A B} (m : Rand A) (k : A -> Rand B) : Rand B :=
  fun n => let (a, n') := m n in k a n'.

Declare Scope rand_scope.
Delimit Scope rand_scope with rand.
Notation "x <- m ;; k" := (bind m (fun x => k))
  (at level 100, m at next level, right associativity) : rand_scope.

Section Simulation.
Context {num : Type} `{Num num}.

Definition G : num := lit 9.8%Q.
Definition default_mass : num := lit 300%Q.
Definition default_trail_length : nat := 800.
Definition default_speed_mutiplier : num := lit 12%Q.
Definition dt : num := lit 0.1%Q.

(** *** createBodiesFromControls *)

Section Create.
Variable host : Host num.

Definition random : Rand num := fun n => (Math_random host n, S n).

(** [x || e] where evaluating [e] may call [Math.random()]. *)
Definition orElseM (x : num) (e : Rand num) : Rand num :=
  if truthy x then ret x else e.

Definition randomOffset : Rand num :=
  (r <- random ;; ret ((r [-] lit 0.5%Q) [*] lit 20%Q))%rand.

Definition randomSpeed : Rand num :=
  (r <- random ;; ret (r [*] default_speed_mutiplier [+] lit 0.5%Q))%rand.

Definition randomDirection : Rand (Vector3 num) :=
  (r1 <- random ;;
   let theta := r1 [*] Math_PI host [*] lit 2%Q in
   r2 <- random ;;
   let phi := Math_acos host (r2 [*] lit 2%Q [-] lit 1%Q) in
   ret (mkVector3 (Math_sin host phi [*] Math_cos host theta)
                  (Math_sin host phi [*] Math_sin host theta)
                  (Math_cos host phi)))%rand.

(** The id [`b${i}-${name}`]. *)
Definition fieldId (i : nat) (name : string) : string :=
  ("b" ++ NilEmpty.string_of_uint (Nat.to_uint i) ++ "-" ++ name)%string.

(** [parseFloat(document.getElementById(`b${i}-${name}`).value)] *)
Definition field (i : nat) (name : string) : num :=
  parseFloat host (fieldValue host (fieldId i name)).

(** The object pushed onto [bodies]. *)
Definition newBody (pos vel : Vector3 num) (m : num) : Body num :=
  {| position := pos;
     velocity := vel;
     mass := m;
     displayPositions := Float32Array (default_trail_length * 3);
     trailPoints := Float32Array (default_trail_length * 3);
     trailIndex := 0;
     trailPointsCount := 0 |}.

(** One iteration of the loop [for (let i = 1; i <= 3; i++)]. *)
Definition createBody (i : nat) : Rand (Body num) :=
  (posX <- orElseM (field i "posX")
             (if i =? 1 then r <- randomOffset ;; ret (lit (-50)%Q [+] r)
              else if i =? 2 then r <- randomOffset ;; ret (lit 50%Q [+] r)
              else randomOffset) ;;
   posY <- orElseM (field i "posY")
             (if i =? 3 then r <- randomOffset ;; ret (lit 50%Q [+] r)
              else randomOffset) ;;
   posZ <- orElseM (field i "posZ") randomOffset ;;
   dir <- randomDirection ;;
   velX <- orElseM (field i "velX")
             (s <- randomSpeed ;; ret (vx dir [*] s)) ;;
   velY <- orElseM (field i "velY")
             (s <- randomSpeed ;; ret (vy dir [*] s)) ;;
   velZ <- orElseM (field i "velZ")
             (s <- randomSpeed ;; ret (vz dir [*] s)) ;;
   let mass := orElse (field i "mass") default_mass in
   ret (newBody (mkVector3 posX posY posZ) (mkVector3 velX velY velZ) mass)
  )%rand.

(** [bodies = []] followed by the loop: the bodies of an earlier run are
    dropped, and three new ones are pushed in order. *)
Fixpoint createLoop (ids : list nat) (bodies : list (Body num))
  : Rand (list (Body num)) :=
  match ids with
  | [] => ret bodies
  | i :: ids' => (b <- createBody i ;; createLoop ids' (bodies ++ [b]))%rand
  end.

Definition createBodiesFromControls : Rand (list (Body num)) :=
  createLoop (seq 1 3) [].

End Create.

(** *** updatePhysics *)

(** The body of the loop over [j]: the force of [bodyB = bodies[j]] on
    [bodyA = bodies[i]] is added to [totalForce]. *)
Definition accumulateForce (bodies : list (Body num)) (i : nat)
    (bodyA : Body num) (totalForce : Vector3 num) (j : nat) : Vector3 num :=
  if i =? j then totalForce
  else
    match bodies !! j with
    | None => totalForce
    | Some bodyB =>
        let diff := subVectors (position bodyB) (position bodyA) in
        let distanceSq := lengthSq diff in
        if distanceSq [<] lit 1%Q then totalForce
        else
          let forceMagnitude := (G [*] mass bodyA [*] mass bodyB) [/] distanceSq in
          let forceDirection := normalize diff in
          add totalForce (multiplyScalar forceDirection forceMagnitude)
    end.

(** [totalForce] when the loop over [j] has finished. *)
Definition totalForceOn (bodies : list (Body num)) (i : nat) (bodyA : Body num)
  : Vector3 num :=
  fold_left (accumulateForce bodies i bodyA) (seq 0 (length bodies))
            (mkVector3 (lit 0%Q) (lit 0%Q) (lit 0%Q)).

Definition setVelocity (b : Body num) (v : Vector3 num) : Body num :=
  {| position := position b; velocity := v; mass := mass b;
     displayPositions := displayPositions b; trailPoints := trailPoints b;
     trailIndex := trailIndex b; trailPointsCount := trailPointsCount b |}.

(** The body of the loop over [i]: [bodies[i].velocity] is updated in
    place, in the array the later iterations read. *)
Definition updateVelocity (bodies : list (Body num)) (i : nat)
  : list (Body num) :=
  match bodies !! i with
  | None => bodies
  | Some bodyA =>
      let totalForce := totalForceOn bodies i bodyA in
      let acceleration := divideScalar totalForce (mass bodyA) in
      <[i := setVelocity bodyA
               (add (velocity bodyA) (multiplyScalar acceleration dt))]> bodies
  end.

(** "Calculate forces": the first loop of [updatePhysics]. *)
Definition updateVelocities (bodies : list (Body num)) : list (Body num) :=
  fold_left updateVelocity (seq 0 (length bodies)) bodies.

(** [body.mesh.position.add(body.velocity.clone().multiplyScalar(dt))] *)
Definition movePosition (body : Body num) : Body num :=
  {| position := add (position body) (multiplyScalar (velocity body) dt);
     velocity := velocity body; mass := mass body;
     displayPositions := displayPositions body;
     trailPoints := trailPoints body;
     trailIndex := trailIndex body;
     trailPointsCount := trailPointsCount body |}.

(** The new point is stored in the circular buffer [body.trailPoints]. *)
Definition recordTrail (body : Body num) : Body num :=
  let tp0 := f32_set (trailPoints body) (trailIndex body * 3)
               (vx (position body)) in
  let tp1 := f32_set tp0 (trailIndex body * 3 + 1) (vy (position body)) in
  let tp2 := f32_set tp1 (trailIndex body * 3 + 2) (vz (position body)) in
  {| position := position body; velocity := velocity body; mass := mass body;
     displayPositions := displayPositions body;
     trailPoints := tp2;
     trailIndex := (trailIndex body + 1) mod default_trail_length;
     trailPointsCount :=
       if trailPointsCount body <? default_trail_length
       then S (trailPointsCount body) else trailPointsCount body |}.

(** [sourceIdx] in iteration [k] of the copy loop. *)
Definition sourceIdx (body : Body num) (k : nat) : nat :=
  if trailPointsCount body =? default_trail_length
  then (trailIndex body + k) mod default_trail_length
  else k.

(** The body of the copy loop over [k]. *)
Definition copyPoint (body : Body num) (displayPositions : list num) (k : nat)
  : list num :=
  let d0 := f32_copy (trailPoints body) (sourceIdx body k * 3)
              displayPositions (k * 3) in
  let d1 := f32_copy (trailPoints body) (sourceIdx body k * 3 + 1)
              d0 (k * 3 + 1) in
  f32_copy (trailPoints body) (sourceIdx body k * 3 + 2) d1 (k * 3 + 2).

(** The trail points are copied to the display buffer in drawing order;
    [setDrawRange(0, body.trailPointsCount)] then makes the first
    [trailPointsCount] points of it the drawn line. *)
Definition copyTrail (body : Body num) : Body num :=
  {| position := position body; velocity := velocity body; mass := mass body;
     displayPositions :=
       fold_left (copyPoint body) (seq 0 (trailPointsCount body))
                 (displayPositions body);
     trailPoints := trailPoints body;
     trailIndex := trailIndex body;
     trailPointsCount := trailPointsCount body |}.

(** The callback of [bodies.forEach] in "Update positions". *)
Definition updatePosition (body : Body num) : Body num :=
  copyTrail (recordTrail (movePosition body)).

Definition updatePhysics (bodies : list (Body num)) : list (Body num) :=
  map updatePosition (updateVelocities bodies).

(** [n] animation frames. *)
Fixpoint steps (n : nat) (bodies : list (Body num)) : list (Body num) :=
  match n with
  | 0 => bodies
  | S n' => updatePhysics (steps n' bodies)
  end.

(** The trail as drawn: the first [trailPointsCount] points of the display
    buffer, oldest first. *)
Definition drawnTrail (body : Body num) : list (Vector3 num) :=
  map (pointAt (displayPositions body)) (seq 0 (trailPointsCount body)).

End Simulation.

(* ===================================================================== *)
(** ** Auxiliary definitions used in the statements *)
(* ===================================================================== *)

Section Statements.
Context {num : Type} `{Num num}.
Implicit Types (a d tp : list num) (p : Vector3 num) (body : Body num).
Implicit Types (bodies : list (Body num)).

(** What the force computation reads of a body. *)
Definition frame (b : Body num) : Vector3 num * num := (position b, mass b).

(** The velocity of [bodies[i] = a] after the first loop, computed from the
    array as it stood when the step began. *)
Definition velocityAfter (bodies : list (Body num)) (i : nat) (a : Body num)
  : Vector3 num :=
  add (velocity a)
      (multiplyScalar (divideScalar (totalForceOn bodies i a) (mass a)) dt).

(** The force loop, run over a list of partners instead of over indices. *)
Definition forceFrom (bodyA : Body num) (partners : list (Body num))
    (totalForce : Vector3 num) : Vector3 num :=
  fold_left
    (fun F bodyB =>
       let diff := subVectors (position bodyB) (position bodyA) in
       if lengthSq diff [<] lit 1%Q then F
       else add F (multiplyScalar (normalize diff)
                     ((G [*] mass bodyA [*] mass bodyB) [/] lengthSq diff)))
    partners totalForce.

(** [bodies[i]] *)
Definition nthBody (bodies : list (Body num)) (i : nat) : Body num :=
  nth i bodies
      (mkBody (mkVector3 (lit 0%Q) (lit 0%Q) (lit 0%Q))
              (mkVector3 (lit 0%Q) (lit 0%Q) (lit 0%Q)) (lit 0%Q) [] [] 0 0).

(** Every pair closer than one unit is left out of the force. *)
Definition tooClose (a b : Body num) : bool :=
  lengthSq (subVectors (position b) (position a)) [<] lit 1%Q.

(** Three consecutive stores: the point [p] written at slot [k]. *)
Definition setPoint a (k : nat) p : list num :=
  f32_set (f32_set (f32_set a (k * 3) (vx p)) (k * 3 + 1) (vy p))
          (k * 3 + 2) (vz p).

(** The buffer of a body whose positions at the end of steps [1], [2], ...
    are [P 1], [P 2], ..., when [n] steps have been made. *)
Definition trailInv (P : nat -> Vector3 num) (n : nat) body : Prop :=
  length (trailPoints body) = default_trail_length * 3 /\
  length (displayPositions body) = default_trail_length * 3 /\
  trailIndex body = n mod default_trail_length /\
  trailPointsCount body = Nat.min n default_trail_length /\
  (forall s, 1 <= s <= n -> n < s + default_trail_length ->
     pointAt (trailPoints body) ((s - 1) mod default_trail_length)
     = stored (P s)).

(** The point that is drawn for a recorded position: it is stored twice,
    in [trailPoints] and in the display buffer. *)
Definition drawn p : Vector3 num := stored (stored p).

(** A body as [createBodiesFromControls] leaves it: empty trail. *)
Definition fresh (body : Body num) : Prop :=
  trailPoints body = Float32Array (default_trail_length * 3) /\
  displayPositions body = Float32Array (default_trail_length * 3) /\
  trailIndex body = 0 /\ trailPointsCount body = 0.

(** The mass the loop gives body [i]. *)
Definition massField (host : Host num) (i : nat) : num :=
  orElse (field host i "mass") default_mass.

(** [Q] holds of the result, however many random numbers were drawn
    before. *)
Definition Returns {A} (m : Rand A) (Q : A -> Prop) : Prop :=
  forall n, Q (m n).1.

(** The position of body [i] at the end of step [s]. *)
Definition positionAt bodies (i s : nat) : Vector3 num :=
  position (nthBody (steps s bodies) i).

End Statements.

(* ===================================================================== *)
(** ** Newtonian gravitation in exact arithmetic *)
(* ===================================================================== *)

Module Newton.
Import Exact.
Local Open Scope R_scope.

Definition vzero : Vector3 R := mkVector3 0 0 0.
Definition vplus (u v : Vector3 R) : Vector3 R :=
  mkVector3 (vx u + vx v) (vy u + vy v) (vz u + vz v).
Definition vscale (s : R) (v : Vector3 R) : Vector3 R :=
  mkVector3 (s * vx v) (s * vy v) (s * vz v).
Definition vsum (l : list (Vector3 R)) : Vector3 R := foldr vplus vzero l.

Definition Rleb (x y : R) : bool := if Rle_dec x y then true else false.

(** [diff = position(b) - position(a)] and [distanceSq = |diff|^2]. *)
Definition spec_diff (a b : Body R) : Vector3 R :=
  mkVector3 (vx (position b) - vx (position a))
            (vy (position b) - vy (position a))
            (vz (position b) - vz (position a)).
Definition spec_distanceSq (a b : Body R) : R :=
  let d := spec_diff a b in vx d * vx d + vy d * vy d + vz d * vz d.

(** [forceMagnitude = G * mass(a) * mass(b) / distanceSq] times the unit
    vector [diff / |diff|]. *)
Definition spec_pairForce (a b : Body R) : Vector3 R :=
  vscale (G * mass a * mass b / spec_distanceSq a b)
         (vscale (/ R_sqrt.sqrt (spec_distanceSq a b)) (spec_diff a b)).

(** The sum over every other body, restricted to the pairs with
    [distanceSq >= 1]. *)
Definition spec_totalForce (bodies : list (Body R)) (i : nat) (a : Body R)
  : Vector3 R :=
  vsum (map (spec_pairForce a)
            (List.filter (fun b => Rleb 1 (spec_distanceSq a b))
                         (delete i bodies))).

(** [acceleration * dt] with [acceleration = totalForce / mass(a)]. *)
Definition spec_velocityIncrement (bodies : list (Body R)) (i : nat)
    (a : Body R) : Vector3 R :=
  vscale dt (vscale (/ mass a) (spec_totalForce bodies i a)).

(** Total momentum: the sum of [mass * velocity]. *)
Definition momentum (bodies : list (Body R)) : Vector3 R :=
  vsum (map (fun b => vscale (mass b) (velocity b)) bodies).

(** The force term of one ordered pair, zero when the pair is left out. *)
Definition pairTerm (a b : Body R) : Vector3 R :=
  if Rleb 1 (spec_distanceSq a b) then spec_pairForce a b else vzero.

(** Three bodies of mass 300 at (-50,0,0), (50,0,0) and (0,50,0), at rest. *)
Definition threeBodies : list (Body R) :=
  [ newBody (mkVector3 (-50) 0 0) (mkVector3 0 0 0) 300;
    newBody (mkVector3 50 0 0) (mkVector3 0 0 0) 300;
    newBody (mkVector3 0 50 0) (mkVector3 0 0 0) 300 ].

End Newton.

(* ===================================================================== *)
(** ** Concrete runs *)
(* ===================================================================== *)

Module Examples.
Import F64.
Local Open Scope string_scope.

(** [parseFloat] on the strings the examples use: an optional minus sign
    followed by decimal digits (at most fifteen, so that the integer is
    exact), and on the empty string.  It answers NaN everywhere else, which
    [parseFloat] does not, and is meant for these inputs only. *)
Fixpoint digitsValue (s : string) (acc : Z) : option Z :=
  match s with
  | EmptyString => Some acc
  | String c s' =>
      let n := Ascii.nat_of_ascii c in
      if ((48 <=? n) && (n <=? 57))%nat
      then digitsValue s' (10 * acc + Z.of_nat (n - 48))
      else None
  end.

Definition parseInteger (s : string) : float :=
  match s with
  | EmptyString => PrimFloat.nan
  | String "-"%char EmptyString => PrimFloat.nan
  | String "-"%char s' =>
      match digitsValue s' 0 with
      | Some z => PrimFloat.opp (of_Z z)
      | None => PrimFloat.nan
      end
  | _ =>
      match digitsValue s 0 with
      | Some z => of_Z z
      | None => PrimFloat.nan
      end
  end.

(** A form: the fields that are filled in; every other field is empty. *)
Definition form (fields : list (string * string)) (id : string) : string :=
  match List.find (fun kv => String.eqb (fst kv) id) fields with
  | Some kv => snd kv
  | None => ""
  end.

(** A host whose form is [fields].  Where every position and velocity
    field holds a nonzero number, no value of [Math] reaches the bodies. *)
Definition hostOf (fields : list (string * string)) : Host float :=
  {| Math_random := fun _ => 0.5%float;
     Math_sin := fun x => x;
     Math_cos := fun x => x;
     Math_acos := fun x => x;
     Math_PI := 3.141592653589793%float;
     parseFloat := parseInteger;
     fieldValue := form fields |}.

Definition filledForm : list (string * string) :=
  [ ("b1-posX", "-50"); ("b1-posY", "1"); ("b1-posZ", "2");
    ("b1-velX", "1"); ("b1-velY", "2"); ("b1-velZ", "3"); ("b1-mass", "300");
    ("b2-posX", "50"); ("b2-posY", "3"); ("b2-posZ", "4");
    ("b2-velX", "-1"); ("b2-velY", "1"); ("b2-velZ", "2"); ("b2-mass", "300");
    ("b3-posX", "5"); ("b3-posY", "50"); ("b3-posZ", "6");
    ("b3-velX", "2"); ("b3-velY", "-1"); ("b3-velZ", "1"); ("b3-mass", "300") ].

(** The same form with a negative mass for the first body. *)
Definition negativeMassForm : list (string * string) :=
  ("b1-mass", "-5") :: filledForm.

Definition filledBodies : list (Body float) :=
  (createBodiesFromControls (hostOf filledForm) 0).1.

(** Two equal masses at rest, 100 units apart on the x axis. *)
Definition twoBodies : list (Body float) :=
  [ newBody (mkVector3 (-50) 0 0)%float (mkVector3 0 0 0)%float 300%float;
    newBody (mkVector3 50 0 0)%float (mkVector3 0 0 0)%float 300%float ].

(** Two bodies at the same place. *)
Definition coincident : list (Body float) :=
  [ newBody (mkVector3 10 20 30)%float (mkVector3 1 0 0)%float 300%float;
    newBody (mkVector3 10 20 30)%float (mkVector3 0 1 0)%float 300%float ].

(** Equality of trails, coordinate by coordinate. *)
Definition sameVector (u v : Vector3 float) : bool :=
  PrimFloat.eqb (vx u) (vx v) && PrimFloat.eqb (vy u) (vy v)
  && PrimFloat.eqb (vz u) (vz v).

Fixpoint sameTrail (l1 l2 : list (Vector3 float)) : bool :=
  match l1, l2 with
  | [], [] => true
  | u :: l1', v :: l2' => sameVector u v && sameTrail l1' l2'
  | _, _ => false
  end.

(** Whether a trail begins with the point [v]. *)
Definition firstIs (v : Vector3 float) (l : list (Vector3 float)) : bool :=
  match l with
  | u :: _ => sameVector v u
  | [] => false
  end.

End Examples.

(* ===================================================================== *)
(** ** The page: start, reset and the animation loop *)
(* ===================================================================== *)

Module App.

(** The variables of the script that change while the page is open
    ([bodies], [animationFrameId]), and what they refer to in the browser:
    the values of the form fields, the number of calls of [Math.random()]
    made so far, and the animation frame requests that are waiting.  Every
    request of the script has [animate] as its callback, so a request is
    represented by its id; [lastHandle] is the id the browser gave last (ids
    are given in increasing order and are never 0).  The scene, the camera
    and the renderer take no part in the simulation and are left out. *)
Record State (num : Type) := mkState {
  bodies : list (Body num);
  animationFrameId : option nat;
  form : string -> string;
  randomCalls : nat;
  callbacks : list nat;
  lastHandle : nat
}.
Arguments mkState {num} _ _ _ _ _ _.
Arguments bodies {num} _.
Arguments animationFrameId {num} _.
Arguments form {num} _.
Arguments randomCalls {num} _.
Arguments callbacks {num} _.
Arguments lastHandle {num} _.

(** What can happen to the page once it is loaded: a click on one of the two
    buttons, an animation frame, or the user typing into a field. *)
Inductive Event : Type :=
| ClickStart
| ClickReset
| Frame
| Input (id value : string).

Section Page.
Context {num : Type} `{Num num}.

(** [host] gives [Math] and [parseFloat] (its form is the one the page is
    loaded with); [toStr] is the conversion of a number to the string a
    field holds after [field.value = number]. *)
Variable host : Host num.
Variable toStr : num -> string.

(** The host as the script sees it when the form holds [f]. *)
Definition hostWith (f : string -> string) : Host num :=
  mkHost (Math_random host) (Math_sin host) (Math_cos host) (Math_acos host)
         (Math_PI host) (parseFloat host) f.

(** [document.getElementById(id).value = x] *)
Definition setValue (f : string -> string) (id : string) (x : num)
  : string -> string :=
  fun id' => if String.eqb id' id then toStr x else f id'.

(** [if (animationFrameId)]: [undefined] and 0 are falsy. *)
Definition isRunning (id : option nat) : bool :=
  match id with
  | Some (S _) => true
  | _ => false
  end.

(** [requestAnimationFrame(animate)]: the browser gives the next id and
    keeps the request until the next frame. *)
Definition requestAnimationFrame (st : State num) : nat * State num :=
  let h := S (lastHandle st) in
  (h, mkState (bodies st) (animationFrameId st) (form st) (randomCalls st)
              (callbacks st ++ [h]) h).

(** [cancelAnimationFrame(id)]: the request with that id, if it is still
    waiting, is dropped. *)
Definition cancelAnimationFrame (id : nat) (st : State num) : State num :=
  mkState (bodies st) (animationFrameId st) (form st) (randomCalls st)
          (List.filter (fun h => negb (h =? id)) (callbacks st))
          (lastHandle st).

(** [if (animationFrameId) { cancelAnimationFrame(animationFrameId); }] *)
Definition cancelIfRunning (st : State num) : State num :=
  match animationFrameId st with
  | Some id => if isRunning (Some id) then cancelAnimationFrame id st else st
  | None => st
  end.

(** [animate]: the next frame is requested, then the bodies, if there are
    any, make one step ([renderer.render] draws them). *)
Definition animate (st : State num) : State num :=
  let (h, st1) := requestAnimationFrame st in
  mkState (if 0 <? length (bodies st1) then updatePhysics (bodies st1)
           else bodies st1)
          (Some h) (form st1) (randomCalls st1) (callbacks st1)
          (lastHandle st1).

(** [createBodiesFromControls] on the page: it reads the form as it is and
    goes on drawing random numbers where the page stopped. *)
Definition createBodies (st : State num) : State num :=
  let (bs, n) := createBodiesFromControls (hostWith (form st)) (randomCalls st) in
  mkState bs (animationFrameId st) (form st) n (callbacks st) (lastHandle st).

Definition startSimulation (st : State num) : State num :=
  animate (createBodies (cancelIfRunning st)).

(** The assignments of [resetSimulation] to the 21 fields, in order.  Its
    [randomOffset], [randomSpeed] and [randomDirection] are written as in
    [createBodiesFromControls]. *)
Definition resetFields (f : string -> string) : Rand (string -> string) :=
  (x1 <- randomOffset host ;;
   let f := setValue f "b1-posX" (lit (-50)%Q [+] x1) in
   y1 <- randomOffset host ;;
   let f := setValue f "b1-posY" y1 in
   z1 <- randomOffset host ;;
   let f := setValue f "b1-posZ" z1 in
   dir1 <- randomDirection host ;;
   s <- randomSpeed host ;;
   let f := setValue f "b1-velX" (vx dir1 [*] s) in
   s <- randomSpeed host ;;
   let f := setValue f "b1-velY" (vy dir1 [*] s) in
   s <- randomSpeed host ;;
   let f := setValue f "b1-velZ" (vz dir1 [*] s) in
   let f := setValue f "b1-mass" default_mass in
   x2 <- randomOffset host ;;
   let f := setValue f "b2-posX" (lit 50%Q [+] x2) in
   y2 <- randomOffset host ;;
   let f := setValue f "b2-posY" y2 in
   z2 <- randomOffset host ;;
   let f := setValue f "b2-posZ" z2 in
   dir2 <- randomDirection host ;;
   s <- randomSpeed host ;;
   let f := setValue f "b2-velX" (vx dir2 [*] s) in
   s <- randomSpeed host ;;
   let f := setValue f "b2-velY" (vy dir2 [*] s) in
   s <- randomSpeed host ;;
   let f := setValue f "b2-velZ" (vz dir2 [*] s) in
   let f := setValue f "b2-mass" default_mass in
   x3 <- randomOffset host ;;
   let f := setValue f "b3-posX" x3 in
   y3 <- randomOffset host ;;
   let f := setValue f "b3-posY" (lit 50%Q [+] y3) in
   z3 <- randomOffset host ;;
   let f := setValue f "b3-posZ" z3 in
   dir3 <- randomDirection host ;;
   s <- randomSpeed host ;;
   let f := setValue f "b3-velX" (vx dir3 [*] s) in
   s <- randomSpeed host ;;
   let f := setValue f "b3-velY" (vy dir3 [*] s) in
   s <- randomSpeed host ;;
   let f := setValue f "b3-velZ" (vz dir3 [*] s) in
   ret (setValue f "b3-mass" default_mass))%rand.

Definition resetForm (st : State num) : State num :=
  let (f, n) := resetFields (form st) (randomCalls st) in
  mkState (bodies st) (animationFrameId st) f n (callbacks st) (lastHandle st).

Definition resetSimulation (st : State num) : State num :=
  animate (createBodies (resetForm (cancelIfRunning st))).

(** An animation frame: the browser runs the requests that were waiting when
    the frame began; a request made meanwhile waits for the next frame. *)
Definition frame (st : State num) : State num :=
  fold_left (fun s _ => animate s) (callbacks st)
            (mkState (bodies st) (animationFrameId st) (form st)
                     (randomCalls st) [] (lastHandle st)).

(** The user types [value] into the field [id]. *)
Definition input (id value : string) (st : State num) : State num :=
  mkState (bodies st) (animationFrameId st)
          (fun id' => if String.eqb id' id then value else form st id')
          (randomCalls st) (callbacks st) (lastHandle st).

Definition handleEvent (st : State num) (e : Event) : State num :=
  match e with
  | ClickStart => startSimulation st
  | ClickReset => resetSimulation st
  | Frame => frame st
  | Input id value => input id value st
  end.

(** The page when the script is loaded: no bodies, [animationFrameId]
    undefined, the form as it is in the document, [n0] calls of
    [Math.random()] and [h0] animation frame requests made before by
    others. *)
Definition loaded (n0 h0 : nat) : State num :=
  mkState [] None (fieldValue host) n0 [] h0.

(** [init]: once the scene is set up, [resetSimulation()]. *)
Definition init (n0 h0 : nat) : State num := resetSimulation (loaded n0 h0).

(** The page after [init] and the events of [es], in order. *)
Definition run (n0 h0 : nat) (es : list Event) : State num :=
  fold_left handleEvent es (init n0 h0).

(** One request is waiting, it is the one [animationFrameId] names, and
    there are three bodies. *)
Definition oneLoop (st : State num) : Prop :=
  exists h, callbacks st = [S h] /\ animationFrameId st = Some (S h) /\
            length (bodies st) = 3.

End Page.

End App.

(* ===================================================================== *)
(** ** Quantities of the motion, and hosts to run the page *)
(* ===================================================================== *)

Module Mechanics.
Import Exact Newton.
Local Open Scope R_scope.

(** The sum of [mass * position]: the total mass times the centre of mass. *)
Definition massMoment (bodies : list (Body R)) : Vector3 R :=
  vsum (map (fun b => vscale (mass b) (position b)) bodies).

(** A host in exact arithmetic: the trigonometric functions of the reals, a
    [Math.random()] that always answers 1/2, and a form whose fields are all
    empty.  ([parseFloat] of an empty field is NaN, which is falsy; exact
    arithmetic has no NaN and 0, falsy as well, stands for it.) *)
Definition realHost : Host R :=
  mkHost (fun _ => 1 / 2) sin cos acos PI (fun _ => 0) (fun _ => EmptyString).

End Mechanics.

Module PageExamples.
Import F64.
Local Open Scope string_scope.

(** [String(x)] for the numbers the examples write into the form: integers
    below 2^53 in absolute value, which JavaScript prints in plain decimal
    ([String(-0)] is "0").  The empty string is answered for every other
    number, which is not what [String] does. *)
Definition showInteger (x : float) : string :=
  match Prim2SF x with
  | S754_zero _ => "0"
  | S754_finite s m e =>
      let shown (p : positive) :=
        ((if s then "-" else "") ++ NilEmpty.string_of_uint (Pos.to_uint p)) in
      match e with
      | Z0 => shown m
      | Z.pos k => shown (Pos.shiftl m (N.pos k))
      | Z.neg k =>
          if (Z.pos m mod 2 ^ Z.pos k =? 0)%Z
          then match (Z.pos m / 2 ^ Z.pos k)%Z with
               | Z.pos p => shown p
               | _ => ""
               end
          else ""
      end
  | _ => ""
  end.

(** The two bodies of [Examples.twoBodies] with other buffers: every element
    is 1, seven points are counted and the next is written at slot 5. *)
Definition twoBodiesWithOtherTrails : list (Body float) :=
  map (fun b => mkBody (position b) (velocity b) (mass b)
                       (replicate 2400 1%float) (replicate 2400 1%float) 5 7)
      Examples.twoBodies.

(** Three bodies of mass 300 at (-50,0,0), (50,0,0) and (0,50,0), at rest,
    in binary64. *)
Definition threeBodies64 : list (Body float) :=
  [ newBody (mkVector3 (-50) 0 0)%float (mkVector3 0 0 0)%float 300%float;
    newBody (mkVector3 50 0 0)%float (mkVector3 0 0 0)%float 300%float;
    newBody (mkVector3 0 50 0)%float (mkVector3 0 0 0)%float 300%float ].

(** A host whose form is empty: every field parses to NaN.  The [n]-th call
    of [Math.random()] by the script answers [(n + 1) / 64].  The identity
    stands for [Math.sin], [Math.cos] and [Math.acos]. *)
Definition emptyFormHost : Host float :=
  {| Math_random := fun n => (of_Z (Z.of_nat n + 1) / 64)%float;
     Math_sin := fun x => x;
     Math_cos := fun x => x;
     Math_acos := fun x => x;
     Math_PI := 3.141592653589793%float;
     parseFloat := Examples.parseInteger;
     fieldValue := Examples.form [] |}.

End PageExamples.

(* ===================================================================== *)
(** ** The force and the defaults, written out *)
(* ===================================================================== *)

Section WrittenOut.
Context {num : Type} `{Num num}.

(** The force of [b] on [a] as the script computes it: the difference
    vector scaled by the reciprocal of its length ([normalize]), times
    [G * mass(a) * mass(b) / distanceSq]. *)
Definition pairForce (a b : Body num) : Vector3 num :=
  let diff := subVectors (position b) (position a) in
  multiplyScalar (multiplyScalar diff
                    (lit 1%Q [/] orElse (nsqrt (lengthSq diff)) (lit 1%Q)))
                 ((G [*] mass a [*] mass b) [/] lengthSq diff).

(** The pair forces of the other elements of the array for which
    [distanceSq < 1] does not hold, added one after the other, in the order
    of the array, to the zero vector. *)
Definition sumOfPairForces (bodies : list (Body num)) (i : nat)
    (a : Body num) : Vector3 num :=
  fold_left add
    (map (pairForce a)
         (List.filter (fun b => negb (tooClose a b)) (delete i bodies)))
    (mkVector3 (lit 0%Q) (lit 0%Q) (lit 0%Q)).

(** The same quantities in the words of the specification: the unit vector
    is [diff / |diff|], and the acceleration is [totalForce / mass(a)]. *)
Definition worded_pairForce (a b : Body num) : Vector3 num :=
  let diff := subVectors (position b) (position a) in
  let len := nsqrt (lengthSq diff) in
  multiplyScalar (mkVector3 (vx diff [/] len) (vy diff [/] len)
                            (vz diff [/] len))
                 ((G [*] mass a [*] mass b) [/] lengthSq diff).

Definition worded_totalForce (bodies : list (Body num)) (i : nat)
    (a : Body num) : Vector3 num :=
  fold_left add
    (map (worded_pairForce a)
         (List.filter (fun b => negb (tooClose a b)) (delete i bodies)))
    (mkVector3 (lit 0%Q) (lit 0%Q) (lit 0%Q)).

Definition worded_velocityAfter (bodies : list (Body num)) (i : nat)
    (a : Body num) : Vector3 num :=
  let F := worded_totalForce bodies i a in
  add (velocity a)
      (multiplyScalar (mkVector3 (vx F [/] mass a) (vy F [/] mass a)
                                 (vz F [/] mass a)) dt).

(** The number of calls of [Math.random()] the script has made once
    [x || e] is evaluated, when it had made [n] before and [e] makes one. *)
Definition drawsAfter (n : nat) (x : num) : nat :=
  if truthy x then n else S n.

End WrittenOut.

(* ===================================================================== *)
(** * Properties *)
(* ===================================================================== *)

(* ===================================================================== *)
(** ** The binary64 instance at work *)
(* ===================================================================== *)

(** The constants are the binary64 numbers the literals denote. *)
Example binary64_constants :
  (G, dt, default_mass, default_speed_mutiplier)
  = (9.8, 0.1, 300, 12)%float.
Proof. vm_compute. reflexivity. Qed.

(** Storing into a [Float32Array]: rounding, overflow to infinity, and the
    special values. *)
Example to_binary32_values :
  map F64.to_binary32 [0.1; 1; -49.99706; 1e300; 1e-46; infinity]%float
  = [0.10000000149011612; 1; -49.997058868408203; infinity; 0; infinity]%float
  /\ PrimFloat.is_nan (F64.to_binary32 nan) = true.
Proof. vm_compute. split; reflexivity. Qed.

(** [x || d] keeps every number but 0, -0 and NaN. *)
Example orElse_values :
  map (fun x => orElse x 300%float) [0; -0; 7; -5; infinity]%float
  = [300; 300; 7; -5; infinity]%float
  /\ orElse nan 300%float = 300%float.
Proof. vm_compute. split; reflexivity. Qed.

(** The filled form gives the bodies it describes, and [Math.random] is
    called only by [randomDirection], twice for each body. *)
Example filledBodies_values :
  map (fun b => (position b, velocity b, mass b)) Examples.filledBodies
  = [ (mkVector3 (-50) 1 2, mkVector3 1 2 3, 300);
      (mkVector3 50 3 4, mkVector3 (-1) 1 2, 300);
      (mkVector3 5 50 6, mkVector3 2 (-1) 1, 300) ]%float
  /\ (createBodiesFromControls (Examples.hostOf Examples.filledForm) 0).2 = 6.
Proof. vm_compute. split; reflexivity. Qed.

(** Two bodies at the same place exert no force on each other: a step leaves
    their velocities as they were. *)
Example coincident_step :
  map velocity (updatePhysics Examples.coincident)
  = [mkVector3 1 0 0; mkVector3 0 1 0]%float.
Proof. vm_compute. reflexivity. Qed.

(* ===================================================================== *)
(** ** The velocity loop *)
(* ===================================================================== *)

Section VelocityLoop.
Context {num : Type} `{Num num}.
Implicit Types (bodies : list (Body num)) (a b : Body num).

Lemma fold_left_pointwise {A B} (f g : A -> B -> A) (l : list B) (x : A) :
  (forall y j, f y j = g y j) -> fold_left f l x = fold_left g l x.
Proof.
  intros Hfg. revert x.
  induction l as [|j l IH]; intros x; simpl; [reflexivity|].
  rewrite Hfg. apply IH.
Qed.

Lemma accumulateForce_frame bodies bodies' i a a' F j :
  frame <$> bodies = frame <$> bodies' -> frame a = frame a' ->
  accumulateForce bodies i a F j = accumulateForce bodies' i a' F j.
Proof.
  intros Hfr Ha. unfold accumulateForce.
  destruct (i =? j); [reflexivity|].
  assert (Hj : frame <$> (bodies !! j) = frame <$> (bodies' !! j)).
  { rewrite <- !list_lookup_fmap. by rewrite Hfr. }
  unfold frame in Ha. injection Ha as Hp Hm.
  destruct (bodies !! j) as [b|], (bodies' !! j) as [b'|];
    simpl in Hj; try discriminate; [|reflexivity].
  unfold frame in Hj. injection Hj as Hbp Hbm.
  rewrite Hp, Hm, Hbp, Hbm. reflexivity.
Qed.

(** The force on a body depends on positions and masses only. *)
Lemma totalForceOn_frame bodies bodies' i a a' :
  frame <$> bodies = frame <$> bodies' -> frame a = frame a' ->
  totalForceOn bodies i a = totalForceOn bodies' i a'.
Proof.
  intros Hfr Ha. unfold totalForceOn.
  assert (Hlen : length bodies = length bodies').
  { rewrite <- (length_fmap frame bodies), Hfr. apply length_fmap. }
  rewrite Hlen. apply fold_left_pointwise.
  intros F j. by apply accumulateForce_frame.
Qed.

(** The array after the first [k] iterations of the velocity loop: the
    bodies before [k] have their new velocity, computed from the array the
    step started with; nothing else has changed. *)
Lemma updateVelocity_prefix bodies k :
  fold_left updateVelocity (seq 0 k) bodies =
  imap (fun i a => if i <? k then setVelocity a (velocityAfter bodies i a)
                   else a) bodies.
Proof.
  induction k as [|k IH].
  - simpl. apply list_eq. intros i. rewrite list_lookup_imap.
    by destruct (bodies !! i).
  - rewrite seq_S, fold_left_app, IH. simpl.
    set (cur := imap _ bodies).
    assert (Hframe : frame <$> cur = frame <$> bodies).
    { apply list_eq. intros i. unfold cur.
      rewrite !list_lookup_fmap, list_lookup_imap.
      destruct (bodies !! i) as [a|]; simpl; [|reflexivity].
      by destruct (i <? k). }
    unfold updateVelocity.
    assert (Hk : cur !! k = bodies !! k).
    { unfold cur. rewrite list_lookup_imap.
      destruct (bodies !! k) as [a|]; simpl; [|reflexivity].
      by rewrite Nat.ltb_irrefl. }
    rewrite Hk.
    destruct (bodies !! k) as [a|] eqn:Ha.
    + rewrite (totalForceOn_frame cur bodies k a a Hframe eq_refl).
      apply list_eq. intros i. rewrite list_lookup_imap.
      destruct (decide (i = k)) as [->|Hne].
      * rewrite list_lookup_insert_eq.
        -- rewrite Ha. simpl.
           replace (k <? S k) with true
             by (symmetry; apply Nat.ltb_lt; lia).
           reflexivity.
        -- unfold cur. rewrite length_imap.
           apply lookup_lt_Some in Ha. exact Ha.
      * rewrite list_lookup_insert_ne by congruence.
        unfold cur. rewrite list_lookup_imap.
        destruct (bodies !! i) as [b|]; simpl; [|reflexivity].
        replace (i <? S k) with (i <? k); [reflexivity|].
        destruct (Nat.ltb_spec i k), (Nat.ltb_spec i (S k)); auto; lia.
    + apply list_eq. intros i. unfold cur. rewrite !list_lookup_imap.
      destruct (bodies !! i) as [b|] eqn:Hb; simpl; [|reflexivity].
      assert (i <> k) by congruence.
      replace (i <? S k) with (i <? k); [reflexivity|].
      destruct (Nat.ltb_spec i k), (Nat.ltb_spec i (S k)); auto; lia.
Qed.

(** The first loop as a whole. *)
Lemma updateVelocities_snapshot bodies :
  updateVelocities bodies =
  imap (fun i a => setVelocity a (velocityAfter bodies i a)) bodies.
Proof.
  unfold updateVelocities. rewrite updateVelocity_prefix.
  apply imap_ext. intros i a Ha. simpl.
  apply lookup_lt_Some in Ha.
  by replace (i <? length bodies) with true
    by (symmetry; apply Nat.ltb_lt; lia).
Qed.

Lemma updatePhysics_lookup bodies i :
  updatePhysics bodies !! i =
  (fun a => updatePosition (setVelocity a (velocityAfter bodies i a)))
    <$> bodies !! i.
Proof.
  unfold updatePhysics. rewrite updateVelocities_snapshot.
  rewrite list_lookup_fmap, list_lookup_imap.
  by destruct (bodies !! i).
Qed.

Lemma length_updatePhysics bodies :
  length (updatePhysics bodies) = length bodies.
Proof.
  unfold updatePhysics. rewrite updateVelocities_snapshot.
  by rewrite length_map, length_imap.
Qed.

Lemma length_steps n bodies : length (steps n bodies) = length bodies.
Proof.
  induction n as [|n IH]; simpl; [reflexivity|].
  by rewrite length_updatePhysics.
Qed.

End VelocityLoop.

(* ===================================================================== *)
(** ** The force loop *)
(* ===================================================================== *)

Section ForceLoop.
Context {num : Type} `{Num num}.
Implicit Types (bodies partners : list (Body num)) (a b : Body num).

Lemma forceLoop_from pre l i a F :
  fold_left (accumulateForce (pre ++ l) i a)
            (seq (length pre) (length l)) F =
  forceFrom a (if decide (length pre <= i) then delete (i - length pre) l
               else l) F.
Proof.
  revert pre F. induction l as [|x l IH]; intros pre F.
  - simpl. by destruct (decide _).
  - cbn [length seq fold_left].
    replace (pre ++ x :: l) with ((pre ++ [x]) ++ l)
      by (by rewrite <- app_assoc).
    replace (S (length pre)) with (length (pre ++ [x]))
      by (rewrite length_app; simpl; lia).
    rewrite IH. rewrite length_app. simpl length.
    unfold accumulateForce at 1.
    destruct (Nat.eqb_spec i (length pre)) as [->|Hne].
    + destruct (decide (length pre + 1 <= length pre)); [lia|].
      destruct (decide (length pre <= length pre)); [|lia].
      by rewrite Nat.sub_diag.
    + rewrite <- app_assoc. simpl.
      rewrite list_lookup_middle by reflexivity.
      destruct (decide (length pre + 1 <= i)) as [Hle|Hgt].
      * destruct (decide (length pre <= i)); [|lia].
        replace (i - length pre) with (S (i - (length pre + 1))) by lia.
        reflexivity.
      * destruct (decide (length pre <= i)); [lia|]. reflexivity.
Qed.

(** The force on [bodies[i]] is accumulated, in order, from the other
    elements of the array. *)
Lemma totalForceOn_partners bodies i a :
  totalForceOn bodies i a =
  forceFrom a (delete i bodies) (mkVector3 (lit 0%Q) (lit 0%Q) (lit 0%Q)).
Proof.
  unfold totalForceOn.
  rewrite (forceLoop_from [] bodies i a). simpl.
  destruct (decide (0 <= i)); [|lia]. by rewrite Nat.sub_0_r.
Qed.

Lemma forceFrom_skip a partners j b F :
  partners !! j = Some b -> tooClose a b = true ->
  forceFrom a partners F = forceFrom a (delete j partners) F.
Proof.
  revert j F. induction partners as [|x l IH]; intros j F Hj Hc.
  - discriminate.
  - destruct j as [|j]; simpl in Hj.
    + injection Hj as ->. unfold forceFrom. simpl.
      unfold tooClose in Hc. by rewrite Hc.
    + simpl. unfold forceFrom in *. simpl. by apply IH.
Qed.

Lemma delete_delete {A} (l : list A) i j :
  i <> j ->
  delete (if j <? i then i - 1 else i) (delete j l) =
  delete (if i <? j then j - 1 else j) (delete i l).
Proof.
  revert i j. induction l as [|x l IH]; intros i j Hne.
  - by destruct (j <? i), (i <? j), i, j.
  - destruct i as [|i], j as [|j]; try lia.
    + simpl. by rewrite Nat.sub_0_r.
    + simpl. by rewrite Nat.sub_0_r.
    + assert (Hij : i <> j) by lia. specialize (IH i j Hij).
      change (S j <? S i) with (j <? i).
      change (S i <? S j) with (i <? j).
      destruct (Nat.ltb_spec j i), (Nat.ltb_spec i j); try lia.
      * destruct i as [|i]; [lia|]. simpl in *.
        rewrite Nat.sub_0_r in *. by rewrite IH.
      * destruct j as [|j]; [lia|]. simpl in *.
        rewrite Nat.sub_0_r in *. by rewrite IH.
Qed.

Lemma lookup_delete_other {A} (l : list A) i j x :
  i <> j -> l !! j = Some x ->
  delete i l !! (if i <? j then j - 1 else j) = Some x.
Proof.
  revert i j. induction l as [|y l IH]; intros i j Hne Hj; [discriminate|].
  destruct i as [|i], j as [|j]; try lia; simpl in *.
  - by rewrite Nat.sub_0_r.
  - exact Hj.
  - change (S i <? S j) with (i <? j).
    assert (Hij : i <> j) by lia. specialize (IH i j Hij Hj).
    destruct (Nat.ltb_spec i j).
    + destruct j as [|j]; [lia|]. simpl in *.
      by rewrite Nat.sub_0_r in *.
    + exact IH.
Qed.

End ForceLoop.

(* ===================================================================== *)
(** ** The trail buffer *)
(* ===================================================================== *)

Section Trail.
Context {num : Type} `{Num num}.
Implicit Types (a d tp : list num) (p : Vector3 num) (body : Body num).

Lemma length_setPoint a k p : length (setPoint a k p) = length a.
Proof. unfold setPoint, f32_set. by rewrite !length_insert. Qed.

Lemma pointAt_setPoint_eq a k p :
  k * 3 + 2 < length a -> pointAt (setPoint a k p) k = stored p.
Proof.
  intros Hk. unfold pointAt, setPoint, f32_set, stored.
  rewrite !nth_lookup.
  repeat first
    [ rewrite list_lookup_insert_eq by (rewrite ?length_insert; lia)
    | rewrite list_lookup_insert_ne by lia ].
  reflexivity.
Qed.

Lemma pointAt_setPoint_ne a k k' p :
  k <> k' -> pointAt (setPoint a k p) k' = pointAt a k'.
Proof.
  intros Hk. unfold pointAt, setPoint, f32_set.
  rewrite !nth_lookup.
  by repeat (rewrite list_lookup_insert_ne by lia).
Qed.

Lemma recordTrail_trailPoints body :
  trailPoints (recordTrail body) =
  setPoint (trailPoints body) (trailIndex body) (position body).
Proof. reflexivity. Qed.

Lemma copyPoint_setPoint body d k :
  sourceIdx body k * 3 + 2 < length (trailPoints body) ->
  copyPoint body d k =
  setPoint d k (pointAt (trailPoints body) (sourceIdx body k)).
Proof.
  intros Hk. unfold copyPoint, setPoint, f32_copy, pointAt. simpl.
  rewrite !nth_lookup.
  destruct (lookup_lt_is_Some_2 (trailPoints body) (sourceIdx body k * 3))
    as [x ->]; [lia|].
  destruct (lookup_lt_is_Some_2 (trailPoints body) (sourceIdx body k * 3 + 1))
    as [y ->]; [lia|].
  destruct (lookup_lt_is_Some_2 (trailPoints body) (sourceIdx body k * 3 + 2))
    as [z ->]; [lia|].
  reflexivity.
Qed.

(** The copy loop after [m] iterations. *)
Lemma copyLoop_prefix body d m :
  (forall k, k < m -> sourceIdx body k * 3 + 2 < length (trailPoints body)) ->
  m * 3 <= length d ->
  let d' := fold_left (copyPoint body) (seq 0 m) d in
  length d' = length d /\
  (forall k, k < m ->
     pointAt d' k = stored (pointAt (trailPoints body) (sourceIdx body k))) /\
  (forall k, m <= k -> pointAt d' k = pointAt d k).
Proof.
  induction m as [|m IH]; intros Hsrc Hlen; cbv zeta.
  - simpl. split; [reflexivity|]. split; [intros; lia | reflexivity].
  - rewrite seq_S, fold_left_app. simpl.
    specialize (IH ltac:(intros; apply Hsrc; lia) ltac:(lia)).
    destruct IH as (IHlen & IHlt & IHge).
    rewrite copyPoint_setPoint by (apply Hsrc; lia).
    split; [|split].
    + by rewrite length_setPoint.
    + intros k Hk. destruct (decide (k = m)) as [->|Hne].
      * rewrite pointAt_setPoint_eq by lia. reflexivity.
      * rewrite pointAt_setPoint_ne by congruence. apply IHlt. lia.
    + intros k Hk. rewrite pointAt_setPoint_ne by lia. apply IHge. lia.
Qed.

Lemma default_trail_length_pos : 0 < default_trail_length.
Proof. unfold default_trail_length. lia. Qed.

Lemma mod_inj_window (C a b : nat) :
  0 < C -> a <= b -> b < a + C -> a mod C = b mod C -> a = b.
Proof.
  intros HC Hab Hb Hmod.
  pose proof (Nat.div_mod a C ltac:(lia)) as Ha.
  pose proof (Nat.div_mod b C ltac:(lia)) as Hb'.
  pose proof (Nat.mod_upper_bound a C ltac:(lia)).
  rewrite Hmod in Ha.
  assert (b / C = a / C) by nia.
  nia.
Qed.

Local Opaque default_trail_length.

Lemma trailInv_recordTrail P n body :
  trailInv P n body -> position body = P (S n) ->
  trailInv P (S n) (recordTrail body).
Proof.
  pose proof default_trail_length_pos as HC.
  intros (Htp & Hd & Hi & Hc & Hpts) Hpos.
  unfold trailInv. rewrite recordTrail_trailPoints.
  rewrite length_setPoint.
  unfold recordTrail; cbn [displayPositions trailIndex trailPointsCount].
  pose proof (Nat.mod_upper_bound n default_trail_length ltac:(lia)) as Hlt.
  repeat split; try assumption.
  - rewrite Hi. replace (S n) with (n + 1) by lia.
    by rewrite Nat.Div0.add_mod_idemp_l.
  - rewrite Hc. destruct (Nat.ltb_spec (Nat.min n default_trail_length)
                            default_trail_length); lia.
  - intros s Hs Hwin. destruct (decide (s = S n)) as [->|Hne].
    + replace (S n - 1) with n by lia. rewrite Hi.
      rewrite pointAt_setPoint_eq by lia. by rewrite Hpos.
    + rewrite pointAt_setPoint_ne.
      * apply Hpts; lia.
      * rewrite Hi. intros Heq.
        assert (s - 1 = n); [|lia].
        apply (mod_inj_window default_trail_length); [lia..|].
        by symmetry.
Qed.

Lemma trailInv_copyTrail P n body :
  trailInv P n body -> trailInv P n (copyTrail body).
Proof.
  pose proof default_trail_length_pos as HC.
  intros (Htp & Hd & Hi & Hc & Hpts).
  unfold trailInv. simpl. repeat split; try assumption.
  assert (Hsrc : forall k, k < trailPointsCount body ->
            sourceIdx body k * 3 + 2 < length (trailPoints body)).
  { intros k Hk. unfold sourceIdx.
    destruct (trailPointsCount body =? default_trail_length).
    - pose proof (Nat.mod_upper_bound (trailIndex body + k)
                    default_trail_length ltac:(lia)). lia.
    - lia. }
  destruct (copyLoop_prefix body (displayPositions body)
              (trailPointsCount body) Hsrc ltac:(lia)) as (Hlen & _).
  lia.
Qed.

(** What is drawn once the copy loop has run. *)
Lemma drawnTrail_copyTrail P n body :
  trailInv P n body ->
  drawnTrail (copyTrail body) =
  map (fun s => drawn (P s))
      (seq (n - Nat.min n default_trail_length + 1)
           (Nat.min n default_trail_length)).
Proof.
  pose proof default_trail_length_pos as HC.
  intros (Htp & Hd & Hi & Hc & Hpts).
  assert (Hsrc : forall k, k < trailPointsCount body ->
            sourceIdx body k * 3 + 2 < length (trailPoints body)).
  { intros k Hk. unfold sourceIdx.
    destruct (trailPointsCount body =? default_trail_length).
    - pose proof (Nat.mod_upper_bound (trailIndex body + k)
                    default_trail_length ltac:(lia)). lia.
    - lia. }
  destruct (copyLoop_prefix body (displayPositions body)
              (trailPointsCount body) Hsrc ltac:(lia)) as (_ & Hcopied & _).
  unfold drawnTrail. simpl. rewrite Hc in *.
  apply list_eq. intros k.
  rewrite !list_lookup_fmap.
  destruct (decide (k < Nat.min n default_trail_length)) as [Hk|Hk].
  - rewrite !lookup_seq_lt by lia. simpl. f_equal.
    rewrite Hcopied by lia. unfold drawn. f_equal.
    unfold sourceIdx. rewrite Hc, Hi.
    destruct (Nat.eqb_spec (Nat.min n default_trail_length)
                default_trail_length) as [Hfull|Hpart].
    + rewrite Nat.Div0.add_mod_idemp_l.
      rewrite <- Hpts by lia. f_equal.
      replace (n + k) with
        ((n - Nat.min n default_trail_length + 1 + k - 1)
         + 1 * default_trail_length) by lia.
      by rewrite Nat.Div0.mod_add.
    + rewrite <- Hpts by lia. f_equal.
      replace (n - Nat.min n default_trail_length + 1 + k - 1) with k by lia.
      rewrite Nat.mod_small; lia.
  - rewrite !lookup_seq_ge by lia. reflexivity.
Qed.

(** Where the copy loop takes the point it writes at place [k]. *)
Lemma copyTrail_source P n body k :
  trailInv P n body -> k < trailPointsCount body ->
  pointAt (displayPositions (copyTrail body)) k =
  stored (pointAt (trailPoints body) (sourceIdx body k)).
Proof.
  pose proof default_trail_length_pos as HC.
  intros (Htp & Hd & Hi & Hc & Hpts) Hk.
  assert (Hsrc : forall k, k < trailPointsCount body ->
            sourceIdx body k * 3 + 2 < length (trailPoints body)).
  { intros k' Hk'. unfold sourceIdx.
    destruct (trailPointsCount body =? default_trail_length).
    - pose proof (Nat.mod_upper_bound (trailIndex body + k')
                    default_trail_length ltac:(lia)). lia.
    - lia. }
  destruct (copyLoop_prefix body (displayPositions body)
              (trailPointsCount body) Hsrc ltac:(lia)) as (_ & Hcopied & _).
  by apply Hcopied.
Qed.

End Trail.

(* ===================================================================== *)
(** ** Construction *)
(* ===================================================================== *)

Section Construction.
Context {num : Type} `{Num num}.
Variable host : Host num.

Lemma returns_ret {A} (a : A) (Q : A -> Prop) : Q a -> Returns (ret a) Q.
Proof. intros Ha n. exact Ha. Qed.

Lemma returns_bind {A B} (m : Rand A) (k : A -> Rand B) P Q :
  Returns m P -> (forall a, P a -> Returns (k a) Q) -> Returns (bind m k) Q.
Proof.
  intros Hm Hk n. unfold bind. specialize (Hm n).
  destruct (m n) as [a n']. by apply Hk.
Qed.

Lemma returns_any {A} (m : Rand A) : Returns m (fun _ => True).
Proof. by intros n. Qed.

Lemma createBody_returns i :
  Returns (createBody host i)
    (fun b => exists pos vel, b = newBody pos vel (massField host i)).
Proof.
  unfold createBody.
  do 7 (eapply returns_bind; [apply returns_any | intros ? _]).
  apply returns_ret. eauto.
Qed.

Lemma createLoop_returns ids acc :
  Returns (createLoop host ids acc)
    (fun bodies => exists news,
       bodies = acc ++ news /\
       Forall2 (fun i b => exists pos vel, b = newBody pos vel (massField host i))
               ids news).
Proof.
  revert acc. induction ids as [|i ids IH]; intros acc.
  - apply returns_ret. exists []. split; [by rewrite app_nil_r | constructor].
  - simpl. eapply returns_bind; [apply createBody_returns|].
    intros b Hb n. destruct (IH (acc ++ [b]) n) as (news & Heq & Hall).
    exists (b :: news). split.
    + rewrite Heq. by rewrite <- app_assoc.
    + by constructor.
Qed.

(** Three bodies are built, each with an empty trail and the mass of its
    form field. *)
Lemma createBodiesFromControls_shape n0 :
  exists p1 v1 p2 v2 p3 v3,
    (createBodiesFromControls host n0).1 =
    [newBody p1 v1 (massField host 1); newBody p2 v2 (massField host 2);
     newBody p3 v3 (massField host 3)].
Proof.
  destruct (createLoop_returns (seq 1 3) [] n0) as (news & Heq & Hall).
  unfold createBodiesFromControls. rewrite Heq. simpl in *.
  apply Forall2_cons_inv_l in Hall as (b1 & l1 & (p1 & v1 & ->) & Hall & ->).
  apply Forall2_cons_inv_l in Hall as (b2 & l2 & (p2 & v2 & ->) & Hall & ->).
  apply Forall2_cons_inv_l in Hall as (b3 & l3 & (p3 & v3 & ->) & Hall & ->).
  apply Forall2_nil_inv_l in Hall as ->.
  by exists p1, v1, p2, v2, p3, v3.
Qed.

Lemma createBodiesFromControls_fresh n0 :
  length (createBodiesFromControls host n0).1 = 3 /\
  Forall fresh (createBodiesFromControls host n0).1.
Proof.
  destruct (createBodiesFromControls_shape n0)
    as (p1 & v1 & p2 & v2 & p3 & v3 & ->).
  split; [reflexivity|].
  repeat constructor.
Qed.

End Construction.

(* ===================================================================== *)
(** ** The trail along a run *)
(* ===================================================================== *)

Section Run.
Context {num : Type} `{Num num}.
Implicit Types (bodies : list (Body num)).

Lemma nthBody_lookup bodies i :
  i < length bodies -> bodies !! i = Some (nthBody bodies i).
Proof.
  intros Hi. unfold nthBody.
  destruct (nth_lookup_or_length bodies i
    (mkBody (mkVector3 (lit 0%Q) (lit 0%Q) (lit 0%Q))
            (mkVector3 (lit 0%Q) (lit 0%Q) (lit 0%Q)) (lit 0%Q) [] [] 0 0));
    [assumption | lia].
Qed.

Lemma nthBody_updatePhysics bodies i :
  i < length bodies ->
  nthBody (updatePhysics bodies) i =
  updatePosition (setVelocity (nthBody bodies i)
                    (velocityAfter bodies i (nthBody bodies i))).
Proof.
  intros Hi. unfold nthBody at 1. apply nth_lookup_Some.
  rewrite updatePhysics_lookup, (nthBody_lookup bodies i Hi). reflexivity.
Qed.

Lemma trailInv_fresh_body P body : fresh body -> trailInv P 0 body.
Proof.
  intros (Htp & Hd & Hi & Hc). unfold trailInv.
  rewrite Htp, Hd, Hi, Hc. unfold Float32Array.
  rewrite !length_replicate, Nat.Div0.mod_0_l.
  repeat split; intros; lia.
Qed.

Lemma trailInv_steps bodies i n :
  Forall fresh bodies -> i < length bodies ->
  trailInv (positionAt bodies i) n (nthBody (steps n bodies) i).
Proof.
  intros Hfresh Hi. induction n as [|n IH].
  - apply trailInv_fresh_body. simpl.
    eapply Forall_lookup_1; [exact Hfresh | by apply nthBody_lookup].
  - unfold positionAt in *. simpl steps.
    rewrite nthBody_updatePhysics by (by rewrite length_steps).
    unfold updatePosition.
    apply trailInv_copyTrail, trailInv_recordTrail.
    + exact IH.
    + simpl steps.
      rewrite nthBody_updatePhysics by (by rewrite length_steps).
      reflexivity.
Qed.

(** What is drawn for body [i] after [n] steps: its last
    [min n default_trail_length] positions, oldest first. *)
Lemma drawnTrail_steps bodies i n :
  Forall fresh bodies -> i < length bodies ->
  drawnTrail (nthBody (steps n bodies) i) =
  map (fun s => drawn (positionAt bodies i s))
      (seq (n - Nat.min n default_trail_length + 1)
           (Nat.min n default_trail_length)).
Proof.
  intros Hfresh Hi. destruct n as [|n].
  - simpl.
    assert (Hf : fresh (nthBody bodies i)).
    { eapply Forall_lookup_1; [exact Hfresh | by apply nthBody_lookup]. }
    destruct Hf as (_ & _ & _ & Hc). unfold drawnTrail. by rewrite Hc.
  - pose proof (trailInv_steps bodies i n Hfresh Hi) as Hinv.
    simpl steps.
    rewrite nthBody_updatePhysics by (by rewrite length_steps).
    unfold updatePosition.
    apply drawnTrail_copyTrail, trailInv_recordTrail.
    + exact Hinv.
    + unfold positionAt. simpl steps.
      rewrite nthBody_updatePhysics by (by rewrite length_steps).
      reflexivity.
Qed.

(** Body [i] after a step: the copy loop has just run on a buffer that
    records the run so far. *)
Lemma step_body bodies i n :
  Forall fresh bodies -> i < length bodies ->
  exists body0,
    nthBody (steps (S n) bodies) i = copyTrail body0 /\
    trailInv (positionAt bodies i) (S n) body0.
Proof.
  intros Hfresh Hi.
  pose proof (trailInv_steps bodies i n Hfresh Hi) as Hinv.
  simpl steps.
  rewrite nthBody_updatePhysics by (by rewrite length_steps).
  unfold updatePosition. eexists. split; [reflexivity|].
  apply trailInv_recordTrail.
  - exact Hinv.
  - unfold positionAt. simpl steps.
    rewrite nthBody_updatePhysics by (by rewrite length_steps).
    reflexivity.
Qed.

End Run.

(* ===================================================================== *)
(** ** The integration step *)
(* ===================================================================== *)

(** C2. One call of [updatePhysics] first runs the velocity loop.  While
    it runs, whatever number [k] of iterations has been made, no position
    has changed, the bodies before [k] have the velocity they had plus [dt]
    times the acceleration computed from the forces among the positions the
    step started with, and the others still have their old velocity.  Only
    when the loop is over is each position advanced, by [dt] times the new
    velocity of its body; the velocities are those the loop left.  This
    holds for every array of bodies, in particular when all masses are
    positive. *)
Theorem C2_velocities_before_positions {num : Type} `{Num num}
    (bodies : list (Body num)) :
  (forall k, map position (fold_left updateVelocity (seq 0 k) bodies)
             = map position bodies) /\
  (forall k, map velocity (fold_left updateVelocity (seq 0 k) bodies)
             = imap (fun i a =>
                       if i <? k
                       then add (velocity a)
                              (multiplyScalar
                                 (divideScalar (totalForceOn bodies i a)
                                               (mass a)) dt)
                       else velocity a)
                    bodies) /\
  updateVelocities bodies
  = imap (fun i a =>
            setVelocity a
              (add (velocity a)
                 (multiplyScalar
                    (divideScalar (totalForceOn bodies i a) (mass a)) dt)))
         bodies /\
  map velocity (updateVelocities bodies)
  = imap (fun i a =>
            add (velocity a)
              (multiplyScalar
                 (divideScalar (totalForceOn bodies i a) (mass a)) dt))
         bodies /\
  map velocity (updatePhysics bodies)
  = map velocity (updateVelocities bodies) /\
  map position (updatePhysics bodies)
  = map (fun a => add (position a) (multiplyScalar (velocity a) dt))
        (updateVelocities bodies) /\
  map position (updatePhysics bodies)
  = imap (fun i a =>
            add (position a)
              (multiplyScalar
                 (add (velocity a)
                    (multiplyScalar
                       (divideScalar (totalForceOn bodies i a) (mass a)) dt))
                 dt))
         bodies.
Proof.
  assert (Hprefix : forall k,
    map velocity (fold_left updateVelocity (seq 0 k) bodies)
    = imap (fun i a =>
              if i <? k
              then add (velocity a)
                     (multiplyScalar
                        (divideScalar (totalForceOn bodies i a) (mass a)) dt)
              else velocity a)
           bodies).
  { intros k. rewrite updateVelocity_prefix.
    apply list_eq. intros i.
    rewrite !list_lookup_fmap, !list_lookup_imap.
    destruct (bodies !! i) as [a|]; simpl; [|reflexivity].
    by destruct (i <? k). }
  assert (Hvel : map velocity (updateVelocities bodies)
    = imap (fun i a =>
              add (velocity a)
                (multiplyScalar
                   (divideScalar (totalForceOn bodies i a) (mass a)) dt))
           bodies).
  { unfold updateVelocities. rewrite Hprefix.
    apply imap_ext. intros i a Ha. simpl.
    apply lookup_lt_Some in Ha.
    by replace (i <? length bodies) with true
      by (symmetry; apply Nat.ltb_lt; lia). }
  assert (Hpos : map position (updatePhysics bodies)
    = map (fun a => add (position a) (multiplyScalar (velocity a) dt))
          (updateVelocities bodies)).
  { unfold updatePhysics. rewrite map_map. reflexivity. }
  split.
  { intros k. rewrite updateVelocity_prefix.
    apply list_eq. intros i.
    rewrite !list_lookup_fmap, list_lookup_imap.
    destruct (bodies !! i) as [a|]; simpl; [|reflexivity].
    by destruct (i <? k). }
  split; [exact Hprefix|].
  split; [apply updateVelocities_snapshot|].
  split; [exact Hvel|].
  split; [unfold updatePhysics; rewrite map_map; reflexivity|].
  split; [exact Hpos|].
  rewrite Hpos, updateVelocities_snapshot.
  apply list_eq. intros i.
  rewrite !list_lookup_fmap, !list_lookup_imap.
  by destruct (bodies !! i).
Qed.

(** The force loop adds, in the order of the array, the pair forces of the
    partners it does not skip. *)
Lemma forceFrom_pairForces {num : Type} `{Num num} (a : Body num)
    (partners : list (Body num)) (F : Vector3 num) :
  forceFrom a partners F
  = fold_left add
      (map (pairForce a)
           (List.filter (fun b => negb (tooClose a b)) partners)) F.
Proof.
  revert F. induction partners as [|b l IH]; intros F; [reflexivity|].
  unfold forceFrom in *. cbn [fold_left List.filter].
  unfold tooClose at 1.
  destruct (lengthSq (subVectors (position b) (position a)) [<] lit 1%Q);
    cbn [negb map fold_left]; rewrite IH; reflexivity.
Qed.

(** C3. For every body [a = bodies[i]], in the arithmetic of the script:
    the total force on [a] is what one gets by adding to the zero vector,
    one after the other in the order of the array, for every other element
    [b] for which [distanceSq < 1] does not hold, the difference vector
    [position(b) - position(a)] multiplied by the reciprocal
    [1 / (|diff| || 1)] and then by [G * mass(a) * mass(b) / distanceSq];
    both directions of a pair are computed independently.  The step adds to
    the velocity of [a] that force multiplied by the reciprocal
    [1 / mass(a)] and then by [dt]. *)
Theorem C3_force_as_computed {num : Type} `{Num num}
    (bodies : list (Body num)) (i : nat) (a : Body num) :
  bodies !! i = Some a ->
  totalForceOn bodies i a = sumOfPairForces bodies i a /\
  velocity <$> updatePhysics bodies !! i
  = Some (add (velocity a)
            (multiplyScalar
               (multiplyScalar (sumOfPairForces bodies i a)
                               (lit 1%Q [/] mass a))
               dt)).
Proof.
  intros Ha.
  assert (HF : totalForceOn bodies i a = sumOfPairForces bodies i a).
  { rewrite totalForceOn_partners. apply forceFrom_pairForces. }
  split; [exact HF|].
  rewrite updatePhysics_lookup, Ha.
  cbn [fmap option_fmap option_map].
  unfold updatePosition, copyTrail, recordTrail, movePosition, setVelocity.
  cbn [velocity]. unfold velocityAfter, divideScalar. by rewrite HF.
Qed.

Lemma C3_force_as_computed_witness :
  PageExamples.threeBodies64 !! 0
  = Some (nthBody PageExamples.threeBodies64 0) /\
  totalForceOn PageExamples.threeBodies64 0
    (nthBody PageExamples.threeBodies64 0)
  = sumOfPairForces PageExamples.threeBodies64 0
      (nthBody PageExamples.threeBodies64 0) /\
  velocity <$> updatePhysics PageExamples.threeBodies64 !! 0
  = Some (add (velocity (nthBody PageExamples.threeBodies64 0))
            (multiplyScalar
               (multiplyScalar
                  (sumOfPairForces PageExamples.threeBodies64 0
                     (nthBody PageExamples.threeBodies64 0))
                  (lit 1%Q [/] mass (nthBody PageExamples.threeBodies64 0)))
               dt)).
Proof.
  split; [reflexivity|].
  apply (C3_force_as_computed PageExamples.threeBodies64 0
           (nthBody PageExamples.threeBodies64 0)).
  reflexivity.
Defined.

(** With true divisions, [diff / |diff|] and [totalForce / mass(a)], the
    binary64 results are others: for three bodies of mass 300 at
    (-50,0,0), (50,0,0) and (0,50,0) the script finds the force
    (212.933636201307, 124.73363620130699, 0) on the first, the divisions
    (212.93363620130697, 124.73363620130698, 0), and the new velocities
    differ as well. *)
Lemma C3_counterexample :
  totalForceOn PageExamples.threeBodies64 0
    (nthBody PageExamples.threeBodies64 0)
  = (mkVector3 212.933636201307 124.73363620130699 0)%float /\
  worded_totalForce PageExamples.threeBodies64 0
    (nthBody PageExamples.threeBodies64 0)
  = (mkVector3 212.93363620130697 124.73363620130698 0)%float /\
  totalForceOn PageExamples.threeBodies64 0
    (nthBody PageExamples.threeBodies64 0)
  <> worded_totalForce PageExamples.threeBodies64 0
       (nthBody PageExamples.threeBodies64 0) /\
  velocity <$> updatePhysics PageExamples.threeBodies64 !! 0
  <> Some (worded_velocityAfter PageExamples.threeBodies64 0
             (nthBody PageExamples.threeBodies64 0)).
Proof.
  split; [vm_compute; reflexivity|].
  split; [vm_compute; reflexivity|].
  split.
  - intros E.
    apply (f_equal (Examples.sameVector
                      (mkVector3 212.933636201307 124.73363620130699
                                 0)%float)) in E.
    vm_compute in E. discriminate E.
  - intros E.
    apply (f_equal (fun o => match o with
                             | Some v =>
                                 Examples.sameVector
                                   (mkVector3 0.070977878733769012
                                      0.041577878733769003 0)%float v
                             | None => false
                             end)) in E.
    vm_compute in E. discriminate E.
Qed.

(** C4. When [bodies[i]] and [bodies[j]] are less than one unit apart
    (squared separation below 1, zero included), the iteration of the force
    loop for that pair returns the accumulated force untouched, so that
    nothing is computed from their separation; the total force on
    [bodies[i]] and its new velocity are those of the array without
    [bodies[j]].  The step is a total function: it raises nothing. *)
Theorem C4_close_pair_is_skipped {num : Type} `{Num num}
    (bodies : list (Body num)) (i j : nat) (a b : Body num) :
  bodies !! i = Some a -> bodies !! j = Some b -> i <> j ->
  (lengthSq (subVectors (position b) (position a)) [<] lit 1%Q) = true ->
  (forall totalForce, accumulateForce bodies i a totalForce j = totalForce) /\
  totalForceOn bodies i a
  = totalForceOn (delete j bodies) (if j <? i then i - 1 else i) a /\
  velocityAfter bodies i a
  = velocityAfter (delete j bodies) (if j <? i then i - 1 else i) a.
Proof.
  intros Ha Hb Hne Hclose.
  assert (Hforce : totalForceOn bodies i a
                   = totalForceOn (delete j bodies)
                       (if j <? i then i - 1 else i) a).
  { rewrite !totalForceOn_partners, delete_delete by exact Hne.
    apply (forceFrom_skip a (delete i bodies) _ b).
    - by apply lookup_delete_other.
    - exact Hclose. }
  split; [|split].
  - intros F. unfold accumulateForce.
    destruct (Nat.eqb_spec i j); [reflexivity|].
    by rewrite Hb, Hclose.
  - exact Hforce.
  - unfold velocityAfter. by rewrite Hforce.
Qed.

Lemma C4_close_pair_is_skipped_witness :
  Examples.coincident !! 0 = Some (nthBody Examples.coincident 0) /\
  Examples.coincident !! 1 = Some (nthBody Examples.coincident 1) /\
  0 <> 1 /\
  (lengthSq (subVectors (position (nthBody Examples.coincident 1))
                        (position (nthBody Examples.coincident 0)))
   [<] lit 1%Q) = true /\
  (forall totalForce,
     accumulateForce Examples.coincident 0 (nthBody Examples.coincident 0)
       totalForce 1 = totalForce) /\
  totalForceOn Examples.coincident 0 (nthBody Examples.coincident 0)
  = totalForceOn (delete 1 Examples.coincident) 0
      (nthBody Examples.coincident 0) /\
  velocityAfter Examples.coincident 0 (nthBody Examples.coincident 0)
  = velocityAfter (delete 1 Examples.coincident) 0
      (nthBody Examples.coincident 0).
Proof.
  split; [reflexivity|]. split; [reflexivity|]. split; [lia|].
  split; [vm_compute; reflexivity|].
  apply (C4_close_pair_is_skipped Examples.coincident 0 1
           (nthBody Examples.coincident 0) (nthBody Examples.coincident 1)).
  - reflexivity.
  - reflexivity.
  - lia.
  - vm_compute. reflexivity.
Defined.

(* ===================================================================== *)
(** ** The trail that is drawn *)
(* ===================================================================== *)

(** C5 (as amended).  After [k <= 800] steps from freshly created bodies, the
    trail drawn for a body consists of exactly [k] points, oldest first: the
    positions the body held at the end of steps 1 to [k], each coordinate as
    a [Float32Array] holds it after being stored in [trailPoints] and copied
    to the display buffer. *)
Theorem C5_trail_before_wrap {num : Type} `{Num num}
    (host : Host num) (n0 k i : nat) :
  k <= default_trail_length -> i < 3 ->
  drawnTrail (nthBody (steps k (createBodiesFromControls host n0).1) i)
  = map (fun s =>
           stored (stored (position
             (nthBody (steps s (createBodiesFromControls host n0).1) i))))
        (seq 1 k).
Proof.
  intros Hk Hi.
  destruct (createBodiesFromControls_fresh host n0) as (Hlen & Hfresh).
  rewrite drawnTrail_steps by (rewrite ?Hlen; assumption).
  replace (Nat.min k default_trail_length) with k by lia.
  replace (k - k + 1) with 1 by lia.
  reflexivity.
Qed.

Lemma C5_trail_before_wrap_witness :
  2 <= default_trail_length /\ 0 < 3 /\
  drawnTrail (nthBody (steps 2 Examples.filledBodies) 0)
  = map (fun s =>
           stored (stored (position
             (nthBody (steps s Examples.filledBodies) 0))))
        (seq 1 2).
Proof.
  split; [unfold default_trail_length; lia|].
  split; [lia|].
  apply (C5_trail_before_wrap (Examples.hostOf Examples.filledForm) 0 2 0).
  - unfold default_trail_length. lia.
  - lia.
Defined.

(** C5 as it is worded, with the positions themselves, fails: after one step
    the first body of the filled form is at x = -49.893035684445387, and the
    point drawn for it has x = -49.893035888671875, the binary32 rounding. *)
Lemma C5_counterexample :
  drawnTrail (nthBody (steps 1 Examples.filledBodies) 0)
  <> map (fun s => position (nthBody (steps s Examples.filledBodies) 0))
         (seq 1 1).
Proof.
  intros E.
  apply (f_equal (Examples.sameTrail
           (drawnTrail (nthBody (steps 1 Examples.filledBodies) 0)))) in E.
  vm_compute in E. discriminate E.
Qed.

(** C6 (as amended).  After [800 + m] steps, [m > 0], from freshly created
    bodies, the buffer of a body is full; the point drawn at place [k] is
    read from slot [(trailIndex + k) mod 800] of [trailPoints]; and the trail
    drawn consists of exactly 800 points: the positions the body held at the
    end of steps [m + 1] (oldest) to [800 + m] (newest), each coordinate as a
    [Float32Array] holds it. *)
Theorem C6_trail_after_wrap {num : Type} `{Num num}
    (host : Host num) (n0 m i : nat) :
  0 < m -> i < 3 ->
  let bodies := (createBodiesFromControls host n0).1 in
  let b := nthBody (steps (default_trail_length + m) bodies) i in
  trailPointsCount b = default_trail_length /\
  length (drawnTrail b) = default_trail_length /\
  (forall k, k < default_trail_length ->
     pointAt (displayPositions b) k
     = stored (pointAt (trailPoints b)
                 ((trailIndex b + k) mod default_trail_length))) /\
  drawnTrail b
  = map (fun s => stored (stored (position (nthBody (steps s bodies) i))))
        (seq (m + 1) default_trail_length).
Proof.
  intros Hm Hi. cbv zeta.
  destruct (createBodiesFromControls_fresh host n0) as (Hlen & Hfresh).
  set (bodies := (createBodiesFromControls host n0).1) in *.
  assert (Hi' : i < length bodies) by (rewrite Hlen; exact Hi).
  assert (Hdrawn :
    drawnTrail (nthBody (steps (default_trail_length + m) bodies) i)
    = map (fun s => stored (stored (position (nthBody (steps s bodies) i))))
          (seq (m + 1) default_trail_length)).
  { rewrite drawnTrail_steps by assumption.
    replace (Nat.min (default_trail_length + m) default_trail_length)
      with default_trail_length by lia.
    replace (default_trail_length + m - default_trail_length + 1)
      with (m + 1) by lia.
    reflexivity. }
  destruct m as [|m]; [lia|].
  replace (default_trail_length + S m) with (S (default_trail_length + m))
    in * by lia.
  destruct (step_body bodies i (default_trail_length + m) Hfresh Hi')
    as (body0 & Hb & Hinv).
  assert (Hcount : trailPointsCount body0 = default_trail_length).
  { destruct Hinv as (_ & _ & _ & Hc & _). rewrite Hc. lia. }
  split; [by rewrite Hb|].
  split; [by rewrite Hdrawn, length_map, length_seq|].
  split; [|exact Hdrawn].
  intros k Hk. rewrite Hb.
  rewrite (copyTrail_source _ _ body0 k Hinv) by lia.
  unfold sourceIdx. rewrite Hcount, Nat.eqb_refl. reflexivity.
Qed.

Lemma C6_trail_after_wrap_witness :
  0 < 1 /\ 0 < 3 /\
  let bodies := (createBodiesFromControls
                   (Examples.hostOf Examples.filledForm) 0).1 in
  let b := nthBody (steps (default_trail_length + 1) bodies) 0 in
  trailPointsCount b = default_trail_length /\
  length (drawnTrail b) = default_trail_length /\
  (forall k, k < default_trail_length ->
     pointAt (displayPositions b) k
     = stored (pointAt (trailPoints b)
                 ((trailIndex b + k) mod default_trail_length))) /\
  drawnTrail b
  = map (fun s => stored (stored (position (nthBody (steps s bodies) 0))))
        (seq (1 + 1) default_trail_length).
Proof.
  split; [lia|]. split; [lia|].
  apply (C6_trail_after_wrap (Examples.hostOf Examples.filledForm) 0 1 0); lia.
Defined.

(** C6 as it is worded fails in the same way: after 801 steps the oldest
    point drawn is not the position the body held at the end of step 2, but
    its binary32 rounding. *)
Lemma C6_counterexample :
  drawnTrail (nthBody (steps (default_trail_length + 1) Examples.filledBodies) 0)
  <> map (fun s => position (nthBody (steps s Examples.filledBodies) 0))
         (seq 2 default_trail_length).
Proof.
  destruct (createBodiesFromControls_fresh
              (Examples.hostOf Examples.filledForm) 0) as (Hlen & Hfresh).
  fold Examples.filledBodies in Hlen, Hfresh.
  rewrite drawnTrail_steps by (rewrite ?Hlen; (assumption || lia)).
  replace (default_trail_length + 1
           - Nat.min (default_trail_length + 1) default_trail_length + 1)
    with 2 by (unfold default_trail_length; lia).
  replace (Nat.min (default_trail_length + 1) default_trail_length)
    with default_trail_length by lia.
  change default_trail_length with (S 799).
  rewrite <- cons_seq. cbn [map]. intros E.
  apply (f_equal (Examples.firstIs
           (drawn (positionAt Examples.filledBodies 0 2)))) in E.
  unfold Examples.firstIs in E.
  vm_compute in E. discriminate E.
Qed.

(** C7.  Creating the bodies leaves every buffer with [trailPointsCount = 0]
    and [trailIndex = 0]; after any number of steps
    [trailPointsCount <= 800] and [trailIndex < 800] (both are natural
    numbers); and each step appends exactly one entry to each buffer: the new
    position is written at slot [trailIndex], no other slot changes,
    [trailIndex] advances by one modulo 800, and [trailPointsCount] grows by
    one only while it is below 800. *)
Theorem C7_trail_buffer_invariant {num : Type} `{Num num}
    (host : Host num) (n0 : nat) :
  Forall (fun b => trailPointsCount b = 0 /\ trailIndex b = 0)
         (createBodiesFromControls host n0).1 /\
  (forall n,
     Forall (fun b => trailPointsCount b <= default_trail_length /\
                      trailIndex b < default_trail_length)
            (steps n (createBodiesFromControls host n0).1)) /\
  (forall n,
     Forall2 (fun b b' =>
                trailIndex b' = (trailIndex b + 1) mod default_trail_length /\
                trailPointsCount b'
                = (if trailPointsCount b <? default_trail_length
                   then trailPointsCount b + 1 else trailPointsCount b) /\
                pointAt (trailPoints b') (trailIndex b) = stored (position b') /\
                (forall k, k <> trailIndex b ->
                   pointAt (trailPoints b') k = pointAt (trailPoints b) k))
             (steps n (createBodiesFromControls host n0).1)
             (steps (S n) (createBodiesFromControls host n0).1)).
Proof.
  destruct (createBodiesFromControls_fresh host n0) as (Hlen & Hfresh).
  set (bodies := (createBodiesFromControls host n0).1) in *.
  pose proof default_trail_length_pos as HC.
  assert (Hinv : forall n i b, steps n bodies !! i = Some b ->
            trailInv (positionAt bodies i) n b).
  { intros n i b Hb.
    assert (Hi : i < length bodies).
    { apply lookup_lt_Some in Hb. by rewrite length_steps in Hb. }
    pose proof (trailInv_steps bodies i n Hfresh Hi) as Ht.
    rewrite nthBody_lookup in Hb by (by rewrite length_steps).
    by injection Hb as <-. }
  split; [|split].
  - eapply Forall_impl; [exact Hfresh|].
    intros b (_ & _ & Hi & Hc). by split.
  - intros n. apply Forall_lookup_2. intros i b Hb.
    destruct (Hinv n i b Hb) as (_ & _ & Hi & Hc & _).
    rewrite Hi, Hc. split; [lia|].
    apply Nat.mod_upper_bound. lia.
  - intros n. apply Forall2_same_length_lookup_2.
    + by rewrite !length_steps.
    + intros i b b' Hb Hb'.
      destruct (Hinv n i b Hb) as (Htp & _ & Hi & _).
      pose proof (Nat.mod_upper_bound n default_trail_length ltac:(lia)).
      simpl steps in Hb'. rewrite updatePhysics_lookup, Hb in Hb'.
      injection Hb' as <-.
      split; [reflexivity|].
      split.
      { cbn [updatePosition copyTrail recordTrail movePosition setVelocity
             trailPointsCount].
        destruct (trailPointsCount b <? default_trail_length); lia. }
      split.
      { unfold updatePosition.
        change (trailPoints (copyTrail ?x)) with (trailPoints x).
        rewrite recordTrail_trailPoints.
        apply pointAt_setPoint_eq.
        cbn [movePosition setVelocity trailPoints trailIndex]. lia. }
      intros k Hk. unfold updatePosition.
      change (trailPoints (copyTrail ?x)) with (trailPoints x).
      rewrite recordTrail_trailPoints.
      apply pointAt_setPoint_ne.
      cbn [movePosition setVelocity trailIndex]. congruence.
Qed.

(* ===================================================================== *)
(** ** Masses *)
(* ===================================================================== *)

Lemma massField_truthy (host : Host float) (i : nat) :
  F64.to_boolean (massField host i) = true.
Proof.
  unfold massField, orElse. cbn [truthy F64.binary64].
  destruct (F64.to_boolean (field host i "mass")) eqn:Hv.
  - exact Hv.
  - vm_compute. reflexivity.
Qed.

Lemma to_boolean_true (x : float) :
  F64.to_boolean x = true ->
  PrimFloat.is_zero x = false /\ PrimFloat.is_nan x = false.
Proof.
  unfold F64.to_boolean.
  destruct (PrimFloat.is_zero x), (PrimFloat.is_nan x); simpl;
    intros; (discriminate || by split).
Qed.

(** A negative number is neither zero nor NaN, so that [||] keeps it. *)
Lemma negative_truthy (x : float) :
  PrimFloat.ltb x 0 = true -> F64.to_boolean x = true.
Proof.
  unfold F64.to_boolean, PrimFloat.is_zero, PrimFloat.is_nan.
  rewrite FloatAxioms.ltb_spec, !FloatAxioms.eqb_spec.
  change (Prim2SF 0) with (S754_zero false).
  change (Prim2SF PrimFloat.zero) with (S754_zero false).
  destruct (Prim2SF x) as [s|s| |s m e]; unfold SFltb, SFeqb; simpl.
  - discriminate.
  - destruct s; [reflexivity | discriminate].
  - discriminate.
  - destruct s; [|discriminate]. intros _.
    rewrite Z.compare_refl, Pos.compare_cont_refl. reflexivity.
Qed.

(** A negative mass field is therefore the mass of its body. *)
Lemma negative_mass_kept (host : Host float) (i : nat) :
  PrimFloat.ltb (field host i "mass") 0 = true ->
  massField host i = field host i "mass".
Proof.
  intros Hneg. apply negative_truthy in Hneg.
  unfold massField, orElse. cbn [truthy F64.binary64]. by rewrite Hneg.
Qed.

(** C1 (as amended).  [createBodiesFromControls] raises nothing and rejects
    no input: whatever the form holds, it builds three bodies.  None of them
    has mass 0 or NaN, because a mass field that parses to 0 or NaN is
    replaced by the default 300. *)
Theorem C1_no_mass_is_rejected (host : Host float) (n0 : nat) :
  length (createBodiesFromControls host n0).1 = 3 /\
  Forall (fun b => PrimFloat.is_zero (mass b) = false /\
                   PrimFloat.is_nan (mass b) = false)
         (createBodiesFromControls host n0).1.
Proof.
  destruct (createBodiesFromControls_shape host n0)
    as (p1 & v1 & p2 & v2 & p3 & v3 & ->).
  split; [reflexivity|].
  repeat constructor; apply to_boolean_true, massField_truthy.
Qed.

(** C1 as it is worded fails: with -5 in the mass field of the first body,
    three bodies are built and the first has mass -5 <= 0. *)
Lemma C1_counterexample :
  length (createBodiesFromControls
            (Examples.hostOf Examples.negativeMassForm) 0).1 = 3 /\
  mass (nthBody (createBodiesFromControls
                   (Examples.hostOf Examples.negativeMassForm) 0).1 0)
  = (-5)%float /\
  PrimFloat.leb (-5) 0 = true.
Proof. vm_compute. repeat split; reflexivity. Qed.

(** C10.  The mass of body [i] is the number its mass field parses to,
    unless that number is 0 (of either sign) or NaN, which is what an
    unparseable field gives: then it is the default 300.  Every other value,
    a negative one included, is taken as it is, and nothing is raised:
    three bodies are built for every form. *)
Theorem C10_mass_from_field (host : Host float) (n0 : nat) :
  map mass (createBodiesFromControls host n0).1
  = map (fun id =>
           let parsed := parseFloat host (fieldValue host id) in
           if PrimFloat.is_zero parsed || PrimFloat.is_nan parsed
           then 300%float else parsed)
        ["b1-mass"; "b2-mass"; "b3-mass"]%string.
Proof.
  destruct (createBodiesFromControls_shape host n0)
    as (p1 & v1 & p2 & v2 & p3 & v3 & ->).
  cbn [map mass newBody].
  unfold massField, orElse, field.
  change (fieldId 1 "mass") with "b1-mass"%string.
  change (fieldId 2 "mass") with "b2-mass"%string.
  change (fieldId 3 "mass") with "b3-mass"%string.
  cbn [truthy F64.binary64]. unfold F64.to_boolean.
  change (default_mass (num := float)) with 300%float.
  repeat match goal with
         | |- context [PrimFloat.is_zero ?x || PrimFloat.is_nan ?x] =>
             destruct (PrimFloat.is_zero x || PrimFloat.is_nan x)
         end; reflexivity.
Qed.

(* ===================================================================== *)
(** ** Two equal bodies at rest *)
(* ===================================================================== *)

(** C8 (as amended).  For masses 300 and 300 at (-50,0,0) and (50,0,0), at
    rest, one step gives the bodies velocities along the x axis, towards each
    other and of equal magnitude; each position has moved by [dt] times the
    new velocity, to x = -49.99706 and x = 49.99706 (to binary64
    precision). *)
Theorem C8_two_equal_bodies :
  map velocity (updatePhysics Examples.twoBodies)
  = [ mkVector3 0.029400000000000006 0 0;
      mkVector3 (-0.029400000000000006) 0 0 ]%float /\
  map position (updatePhysics Examples.twoBodies)
  = [ mkVector3 (-50 + 0.029400000000000006 * dt) 0 0;
      mkVector3 (50 + (-0.029400000000000006) * dt) 0 0 ]%float /\
  (-50 + 0.029400000000000006 * dt = -49.997059999999998)%float /\
  (50 + (-0.029400000000000006) * dt = 49.997059999999998)%float.
Proof. vm_compute. repeat split; reflexivity. Qed.

(** C8 as it is worded fails in its last part: the positions are not what
    they were before the step. *)
Lemma C8_counterexample :
  map position (updatePhysics Examples.twoBodies)
  <> map position Examples.twoBodies.
Proof.
  intros E.
  apply (f_equal (Examples.sameTrail (map position Examples.twoBodies))) in E.
  vm_compute in E. discriminate E.
Qed.

(* ===================================================================== *)
(** ** Forces and momentum in exact arithmetic *)
(* ===================================================================== *)

Module Gravitation.
Import Exact Newton.
Local Open Scope R_scope.

Ltac vec_ring :=
  repeat match goal with
         | |- context [vsum ?l] =>
             let s := fresh "s" in generalize (vsum l); intros s
         end;
  repeat match goal with v : Vector3 R |- _ => destruct v end;
  unfold vplus, vscale, vzero; cbn [vx vy vz]; f_equal; ring.

Lemma vsum_map_plus {A} (g h : A -> Vector3 R) l :
  vsum (map (fun a => vplus (g a) (h a)) l) =
  vplus (vsum (map g l)) (vsum (map h l)).
Proof.
  induction l as [|x l IH]; simpl.
  - vec_ring.
  - rewrite IH. vec_ring.
Qed.

Lemma vsum_map_zero {A} (g : A -> Vector3 R) l :
  (forall a, g a = vzero) -> vsum (map g l) = vzero.
Proof.
  intros Hg. induction l as [|x l IH]; simpl; [reflexivity|].
  rewrite Hg, IH. vec_ring.
Qed.

Lemma vsum_delete {A} (g : A -> Vector3 R) l i x :
  l !! i = Some x ->
  vplus (g x) (vsum (map g (delete i l))) = vsum (map g l).
Proof.
  revert i. induction l as [|y l IH]; intros i Hi; [discriminate|].
  destruct i as [|i]; simpl in *.
  - by injection Hi as ->.
  - rewrite <- (IH i Hi). vec_ring.
Qed.

(** Equal and opposite: Newton's third law for the pair terms. *)
Lemma spec_distanceSq_sym a b : spec_distanceSq a b = spec_distanceSq b a.
Proof. unfold spec_distanceSq, spec_diff. cbn [vx vy vz]. ring. Qed.

Lemma pairTerm_opposite a b : vplus (pairTerm a b) (pairTerm b a) = vzero.
Proof.
  unfold pairTerm. rewrite (spec_distanceSq_sym b a).
  destruct (Rleb 1 (spec_distanceSq a b)); [|vec_ring].
  unfold spec_pairForce. rewrite (spec_distanceSq_sym b a).
  unfold spec_diff, vplus, vscale, vzero, Rdiv. cbn [vx vy vz].
  f_equal; ring.
Qed.

Lemma pairTerm_self a : pairTerm a a = vzero.
Proof.
  unfold pairTerm, Rleb.
  destruct (Rle_dec 1 (spec_distanceSq a a)) as [Hle|]; [|reflexivity].
  exfalso. unfold spec_distanceSq, spec_diff in Hle. cbn [vx vy vz] in Hle.
  lra.
Qed.

Lemma vsum_filter {A} (keep : A -> bool) (g : A -> Vector3 R) l :
  vsum (map g (List.filter keep l)) =
  vsum (map (fun a => if keep a then g a else vzero) l).
Proof.
  induction l as [|x l IH]; simpl; [reflexivity|].
  destruct (keep x); simpl; rewrite IH; vec_ring.
Qed.

(** The pair terms of a whole array cancel. *)
Lemma pairTerm_double_sum l :
  vsum (map (fun a => vsum (map (pairTerm a) l)) l) = vzero.
Proof.
  induction l as [|x l IH]; [reflexivity|].
  cbn [map vsum foldr].
  change (foldr vplus vzero) with vsum.
  rewrite pairTerm_self.
  rewrite (vsum_map_plus (fun a => pairTerm a x)
             (fun a => vsum (map (pairTerm a) l)) l).
  rewrite IH.
  assert (Hpair : vplus (vsum (map (pairTerm x) l))
                        (vsum (map (fun a => pairTerm a x) l)) = vzero).
  { rewrite <- vsum_map_plus. apply vsum_map_zero.
    intros a. apply pairTerm_opposite. }
  revert Hpair.
  generalize (vsum (map (pairTerm x) l)).
  generalize (vsum (map (fun a => pairTerm a x) l)).
  intros u v Huv. destruct u, v. unfold vplus, vzero in *.
  cbn [vx vy vz] in *. injection Huv as Hx Hy Hz. f_equal; lra.
Qed.

(** *** The script's formulas, read in exact arithmetic *)

Lemma lit_0 : lit (num := R) 0%Q = 0.
Proof. apply RMicromega.Q2R_0. Qed.

Lemma lit_1 : lit (num := R) 1%Q = 1.
Proof. apply RMicromega.Q2R_1. Qed.

Lemma lengthSq_diff a b :
  lengthSq (subVectors (position b) (position a)) = spec_distanceSq a b.
Proof. reflexivity. Qed.

Lemma tooClose_exact a b : tooClose a b = negb (Rleb 1 (spec_distanceSq a b)).
Proof.
  unfold tooClose. rewrite lengthSq_diff, lit_1.
  cbn [nltb reals]. unfold Rltb, Rleb.
  destruct (Rlt_dec _ _), (Rle_dec _ _); try reflexivity; lra.
Qed.

Lemma normalize_exact (d : Vector3 R) :
  1 <= lengthSq d -> normalize d = vscale (/ R_sqrt.sqrt (lengthSq d)) d.
Proof.
  intros Hd. unfold normalize, divideScalar, multiplyScalar, orElse, length3.
  assert (Hs : 0 < R_sqrt.sqrt (lengthSq d)) by (apply sqrt_lt_R0; lra).
  cbn [truthy nsqrt reals]. unfold Rtruthy.
  destruct (Req_dec_T _ 0) as [Hz|_]; [lra|].
  rewrite lit_1. unfold vscale. cbn [nmul ndiv reals]. unfold Rdiv.
  f_equal; ring.
Qed.

Lemma forceFrom_exact a l F :
  forceFrom a l F =
  vplus F (vsum (map (spec_pairForce a)
                     (List.filter (fun b => Rleb 1 (spec_distanceSq a b)) l))).
Proof.
  revert F. induction l as [|b l IH]; intros F.
  - simpl. vec_ring.
  - unfold forceFrom in *. cbn [fold_left List.filter].
    pose proof (tooClose_exact a b) as Hc. unfold tooClose in Hc.
    rewrite Hc, IH.
    unfold Rleb in *.
    destruct (Rle_dec 1 (spec_distanceSq a b)) as [Hle|Hgt]; cbn [negb].
    + rewrite normalize_exact by exact Hle.
      rewrite lengthSq_diff. cbn [map vsum foldr].
      change (foldr vplus vzero) with vsum.
      unfold spec_pairForce, multiplyScalar, add.
      change (subVectors (position b) (position a)) with (spec_diff a b).
      generalize (spec_diff a b); intros d.
      unfold vscale, vplus. cbn [vx vy vz nadd nmul ndiv reals].
      generalize (vsum (map (spec_pairForce a)
        (List.filter (fun b0 => if Rle_dec 1 (spec_distanceSq a b0)
                                then true else false) l))); intros s.
      destruct F, d, s. cbn [vx vy vz]. f_equal; ring.
    + reflexivity.
Qed.

Lemma totalForceOn_exact bodies i a :
  totalForceOn bodies i a = spec_totalForce bodies i a.
Proof.
  rewrite totalForceOn_partners, forceFrom_exact, !lit_0.
  unfold spec_totalForce. fold vzero. vec_ring.
Qed.

Lemma velocityAfter_exact bodies i a :
  velocityAfter bodies i a =
  vplus (velocity a) (spec_velocityIncrement bodies i a).
Proof.
  unfold velocityAfter, spec_velocityIncrement.
  rewrite totalForceOn_exact.
  generalize (spec_totalForce bodies i a); intros F.
  unfold divideScalar, add, multiplyScalar, vplus, vscale.
  rewrite lit_1. cbn [vx vy vz nadd nmul ndiv reals]. unfold Rdiv.
  f_equal; ring.
Qed.

Lemma spec_totalForce_all bodies i a :
  bodies !! i = Some a ->
  spec_totalForce bodies i a = vsum (map (pairTerm a) bodies).
Proof.
  intros Ha. unfold spec_totalForce.
  rewrite vsum_filter. fold (pairTerm a).
  rewrite <- (vsum_delete (pairTerm a) bodies i a Ha), pairTerm_self.
  vec_ring.
Qed.

Lemma momentum_increment (T : Body R -> Vector3 R) l :
  Forall (fun b => 0 < mass b) l ->
  vsum (map (fun a => vscale (mass a)
               (vplus (velocity a) (vscale dt (vscale (/ mass a) (T a))))) l)
  = vplus (momentum l) (vscale dt (vsum (map T l))).
Proof.
  unfold momentum. induction 1 as [|a l Hm _ IH]; cbn [map vsum foldr].
  - vec_ring.
  - change (foldr vplus vzero) with vsum. rewrite IH.
    generalize (T a); intros t. generalize (dt (num := R)); intros h.
    generalize (vsum (map T l)). generalize (vsum (map (fun b => vscale (mass b) (velocity b)) l)).
    intros s1 s2. destruct (velocity a) as [x y z], t, s1, s2.
    unfold vplus, vscale. cbn [vx vy vz]. f_equal; field; lra.
Qed.


(** In exact arithmetic the reciprocals are divisions and the order of the
    additions does not matter: the force the loop accumulates on
    [bodies[i] = a] is the sum, over the other elements [b] of the array with
    [distanceSq >= 1], of [G * mass(a) * mass(b) / distanceSq] times the unit
    vector from [a] to [b]; and the step adds to the velocity of [a] that
    force divided by [mass(a)] and multiplied by [dt]. *)
Lemma exact_force_is_sum_over_pairs (bodies : list (Body R)) (i : nat)
    (a : Body R) :
  bodies !! i = Some a ->
  totalForceOn bodies i a = spec_totalForce bodies i a /\
  velocity <$> updatePhysics bodies !! i
  = Some (vplus (velocity a) (spec_velocityIncrement bodies i a)).
Proof.
  intros Ha. split; [apply totalForceOn_exact|].
  rewrite updatePhysics_lookup, Ha. simpl. f_equal.
  apply velocityAfter_exact.
Qed.

(** C9.  In exact arithmetic the pair forces are equal and opposite, so that
    for positive masses the total momentum, the sum of mass times velocity,
    is the same after the velocity loop, and after the whole step, as
    before. *)
Theorem C9_momentum_is_conserved (bodies : list (Body R)) :
  Forall (fun b => 0 < mass b) bodies ->
  momentum (updateVelocities bodies) = momentum bodies /\
  momentum (updatePhysics bodies) = momentum bodies.
Proof.
  intros Hmass.
  assert (Hvel : momentum (updateVelocities bodies) = momentum bodies).
  { rewrite updateVelocities_snapshot. unfold momentum at 1.
    replace (map (fun b => vscale (mass b) (velocity b))
               (imap (fun i a => setVelocity a (velocityAfter bodies i a))
                     bodies))
      with (map (fun a => vscale (mass a)
                   (vplus (velocity a)
                      (vscale dt (vscale (/ mass a)
                         (vsum (map (pairTerm a) bodies)))))) bodies).
    - rewrite (momentum_increment
                 (fun a => vsum (map (pairTerm a) bodies)) bodies Hmass).
      rewrite pairTerm_double_sum.
      generalize (momentum bodies); intros p.
      generalize (dt (num := R)); intros h.
      destruct p. unfold vplus, vscale, vzero. cbn [vx vy vz].
      f_equal; ring.
    - apply list_eq. intros i.
      rewrite !list_lookup_fmap, list_lookup_imap.
      destruct (bodies !! i) as [a|] eqn:Ha; [|reflexivity].
      cbn [fmap option_fmap option_map setVelocity mass velocity]. f_equal.
      rewrite velocityAfter_exact. unfold spec_velocityIncrement.
      by rewrite (spec_totalForce_all bodies i a Ha). }
  split; [exact Hvel|].
  rewrite <- Hvel. unfold momentum, updatePhysics.
  rewrite map_map. reflexivity.
Qed.

Lemma C9_momentum_is_conserved_witness :
  Forall (fun b => 0 < mass b) threeBodies /\
  momentum (updateVelocities threeBodies) = momentum threeBodies /\
  momentum (updatePhysics threeBodies) = momentum threeBodies.
Proof.
  assert (Hmass : Forall (fun b : Body R => 0 < mass b) threeBodies).
  { unfold threeBodies. repeat constructor; cbn [mass newBody]; lra. }
  split; [exact Hmass|].
  apply (C9_momentum_is_conserved threeBodies Hmass).
Defined.

End Gravitation.

(* ===================================================================== *)
(** ** What a step keeps *)
(* ===================================================================== *)

Section StepKeeps.
Context {num : Type} `{Num num}.
Implicit Types (bodies : list (Body num)) (body : Body num).

Lemma length_f32_copy (src : list num) i (dst : list num) k :
  length (f32_copy src i dst k) = length dst.
Proof.
  unfold f32_copy, f32_set. destruct (src !! i); [apply length_insert|done].
Qed.

Lemma length_copyLoop body (ks : list nat) (d : list num) :
  length (fold_left (copyPoint body) ks d) = length d.
Proof.
  revert d. induction ks as [|k ks IH]; intros d; simpl; [reflexivity|].
  rewrite IH. unfold copyPoint. by rewrite !length_f32_copy.
Qed.

Lemma updatePosition_lengths body :
  length (trailPoints (updatePosition body)) = length (trailPoints body) /\
  length (displayPositions (updatePosition body))
  = length (displayPositions body).
Proof.
  split.
  - unfold updatePosition.
    change (trailPoints (copyTrail ?x)) with (trailPoints x).
    rewrite recordTrail_trailPoints. apply length_setPoint.
  - unfold updatePosition, copyTrail. cbn [displayPositions].
    by rewrite length_copyLoop.
Qed.

Lemma steps_masses bodies (n : nat) :
  map mass (steps n bodies) = map mass bodies.
Proof.
  induction n as [|n IH]; [reflexivity|].
  rewrite <- IH. simpl steps.
  apply list_eq. intros i.
  rewrite !list_lookup_fmap, updatePhysics_lookup.
  by destruct (steps n bodies !! i).
Qed.

(** X1.  The simulation never changes the number of bodies nor the mass of
    any of them: after [n] steps the array has the length it had and the
    same masses, in the same order. *)
Theorem X1_steps_keep_masses bodies (n : nat) :
  length (steps n bodies) = length bodies /\
  map mass (steps n bodies) = map mass bodies.
Proof. split; [apply length_steps | apply steps_masses]. Qed.

(** X2.  The two buffers of a body never change size, whatever the state of
    the body: a step writes inside them or not at all.  For the bodies that
    [createBodiesFromControls] builds both keep their 2400 elements, so the
    trail of a run takes a fixed amount of memory. *)
Theorem X2_buffers_keep_size bodies (n : nat) (host : Host num) (n0 : nat) :
  map (fun b => (length (trailPoints b), length (displayPositions b)))
      (steps n bodies)
  = map (fun b => (length (trailPoints b), length (displayPositions b)))
        bodies /\
  Forall (fun b => length (trailPoints b) = 2400 /\
                   length (displayPositions b) = 2400)
         (steps n (createBodiesFromControls host n0).1).
Proof.
  assert (Hkeep : forall bs,
    map (fun b => (length (trailPoints b), length (displayPositions b)))
        (steps n bs)
    = map (fun b => (length (trailPoints b), length (displayPositions b))) bs).
  { intros bs. induction n as [|m IH]; [reflexivity|].
    rewrite <- IH. simpl steps.
    apply list_eq. intros i.
    rewrite !list_lookup_fmap, updatePhysics_lookup.
    destruct (steps m bs !! i) as [b|]; [|reflexivity].
    cbn [fmap option_fmap option_map]. f_equal.
    destruct (updatePosition_lengths
                (setVelocity b (velocityAfter (steps m bs) i b)))
      as (-> & ->).
    reflexivity. }
  split; [apply Hkeep|].
  specialize (Hkeep (createBodiesFromControls host n0).1).
  destruct (createBodiesFromControls_shape host n0)
    as (p1 & v1 & p2 & v2 & p3 & v3 & Hshape).
  rewrite Hshape in Hkeep at 2.
  apply Forall_lookup_2. intros i b Hb.
  pose proof (f_equal (fun l => l !! i) Hkeep) as Hi. cbn beta in Hi.
  rewrite list_lookup_fmap, Hb in Hi.
  destruct i as [|[|[|i]]]; simpl in Hi; try discriminate;
    injection Hi as -> ->; split; reflexivity.
Qed.

End StepKeeps.

(* ===================================================================== *)
(** ** What the form decides *)
(* ===================================================================== *)

Section FilledForm.
Context {num : Type} `{Num num}.
Variable host : Host num.

Lemma createBody_filled (i n : nat) :
  Forall (fun name => truthy (field host i name) = true)
         ["posX"; "posY"; "posZ"; "velX"; "velY"; "velZ"]%string ->
  createBody host i n
  = (newBody (mkVector3 (field host i "posX") (field host i "posY")
                        (field host i "posZ"))
             (mkVector3 (field host i "velX") (field host i "velY")
                        (field host i "velZ"))
             (massField host i),
     S (S n)).
Proof.
  intros Hf.
  apply Forall_cons in Hf as [HpX Hf]. apply Forall_cons in Hf as [HpY Hf].
  apply Forall_cons in Hf as [HpZ Hf]. apply Forall_cons in Hf as [HvX Hf].
  apply Forall_cons in Hf as [HvY Hf]. apply Forall_cons in Hf as [HvZ _].
  unfold createBody, bind, orElseM.
  rewrite HpX, HpY, HpZ, HvX, HvY, HvZ.
  reflexivity.
Qed.

End FilledForm.

(** X3.  Where the six position and velocity fields of each body hold
    numbers other than 0 and NaN, [createBodiesFromControls] builds exactly
    the bodies the form describes, whatever [Math.random()] and the other
    functions of [Math] return and however often [Math.random()] was called
    before: nothing of what [Math] returns reaches the bodies. *)
Theorem X3_filled_form_is_taken_as_is {num : Type} `{Num num}
    (host : Host num) (n0 : nat) :
  Forall (fun i =>
            Forall (fun name => truthy (field host i name) = true)
                   ["posX"; "posY"; "posZ"; "velX"; "velY"; "velZ"]%string)
         [1; 2; 3] ->
  (createBodiesFromControls host n0).1
  = map (fun i =>
           newBody (mkVector3 (field host i "posX") (field host i "posY")
                              (field host i "posZ"))
                   (mkVector3 (field host i "velX") (field host i "velY")
                              (field host i "velZ"))
                   (orElse (field host i "mass") default_mass))
        [1; 2; 3].
Proof.
  intros Hf.
  apply Forall_cons in Hf as [H1 Hf]. apply Forall_cons in Hf as [H2 Hf].
  apply Forall_cons in Hf as [H3 _].
  unfold createBodiesFromControls. cbn [seq createLoop]. unfold bind.
  rewrite (createBody_filled host 1 n0 H1).
  rewrite (createBody_filled host 2 _ H2).
  rewrite (createBody_filled host 3 _ H3).
  unfold ret, massField. reflexivity.
Qed.

Lemma X3_filled_form_is_taken_as_is_witness :
  Forall (fun i =>
            Forall (fun name =>
                      truthy (field (Examples.hostOf Examples.filledForm)
                                i name) = true)
                   ["posX"; "posY"; "posZ"; "velX"; "velY"; "velZ"]%string)
         [1; 2; 3] /\
  (createBodiesFromControls (Examples.hostOf Examples.filledForm) 0).1
  = map (fun i =>
           newBody (mkVector3
                      (field (Examples.hostOf Examples.filledForm) i "posX")
                      (field (Examples.hostOf Examples.filledForm) i "posY")
                      (field (Examples.hostOf Examples.filledForm) i "posZ"))
                   (mkVector3
                      (field (Examples.hostOf Examples.filledForm) i "velX")
                      (field (Examples.hostOf Examples.filledForm) i "velY")
                      (field (Examples.hostOf Examples.filledForm) i "velZ"))
                   (orElse
                      (field (Examples.hostOf Examples.filledForm) i "mass")
                      default_mass))
        [1; 2; 3].
Proof.
  assert (Hf : Forall (fun i =>
            Forall (fun name =>
                      truthy (field (Examples.hostOf Examples.filledForm)
                                i name) = true)
                   ["posX"; "posY"; "posZ"; "velX"; "velY"; "velZ"]%string)
         [1; 2; 3]).
  { repeat constructor; vm_compute; reflexivity. }
  split; [exact Hf|].
  apply (X3_filled_form_is_taken_as_is
           (Examples.hostOf Examples.filledForm) 0 Hf).
Defined.

(* ===================================================================== *)
(** ** The motion in exact arithmetic *)
(* ===================================================================== *)

Module Motion.
Import Exact Newton Gravitation Mechanics.
Local Open Scope R_scope.

Lemma G_pos : 0 < G (num := R).
Proof. unfold G. cbn [lit reals]. unfold Q2R. simpl. lra. Qed.

Lemma dt_value : dt (num := R) = 1 / 10.
Proof. unfold dt. cbn [lit reals]. unfold Q2R. simpl. lra. Qed.

Lemma momentum_updateVelocities (bodies : list (Body R)) :
  Forall (fun b => 0 < mass b) bodies ->
  momentum (updateVelocities bodies) = momentum bodies.
Proof.
  intros Hmass.
  rewrite updateVelocities_snapshot. unfold momentum at 1.
  replace (map (fun b => vscale (mass b) (velocity b))
             (imap (fun i a => setVelocity a (velocityAfter bodies i a))
                   bodies))
    with (map (fun a => vscale (mass a)
                 (vplus (velocity a)
                    (vscale dt (vscale (/ mass a)
                       (vsum (map (pairTerm a) bodies)))))) bodies).
  - rewrite (momentum_increment
               (fun a => vsum (map (pairTerm a) bodies)) bodies Hmass).
    rewrite pairTerm_double_sum.
    generalize (momentum bodies); intros p.
    generalize (dt (num := R)); intros h.
    destruct p. unfold vplus, vscale, vzero. cbn [vx vy vz].
    f_equal; ring.
  - apply list_eq. intros i.
    rewrite !list_lookup_fmap, list_lookup_imap.
    destruct (bodies !! i) as [a|] eqn:Ha; [|reflexivity].
    cbn [fmap option_fmap option_map setVelocity mass velocity]. f_equal.
    rewrite velocityAfter_exact. unfold spec_velocityIncrement.
    by rewrite (spec_totalForce_all bodies i a Ha).
Qed.

Lemma momentum_updatePhysics (bodies : list (Body R)) :
  Forall (fun b => 0 < mass b) bodies ->
  momentum (updatePhysics bodies) = momentum bodies.
Proof.
  intros Hmass. rewrite <- (momentum_updateVelocities bodies Hmass).
  unfold momentum, updatePhysics. rewrite map_map. reflexivity.
Qed.

Lemma steps_positive_masses (bodies : list (Body R)) (n : nat) :
  Forall (fun b => 0 < mass b) bodies ->
  Forall (fun b => 0 < mass b) (steps n bodies).
Proof.
  intros Hmass. apply Forall_lookup_2. intros i b Hb.
  pose proof (f_equal (fun l => l !! i) (steps_masses bodies n)) as Hi.
  cbn beta in Hi. rewrite !list_lookup_fmap, Hb in Hi.
  destruct (bodies !! i) as [b0|] eqn:Hb0; [|discriminate].
  injection Hi as ->. by apply (Forall_lookup_1 _ _ _ _ Hmass Hb0).
Qed.

Lemma momentum_steps (bodies : list (Body R)) (n : nat) :
  Forall (fun b => 0 < mass b) bodies ->
  momentum (steps n bodies) = momentum bodies.
Proof.
  intros Hmass. induction n as [|n IH]; [reflexivity|].
  simpl steps. rewrite momentum_updatePhysics; [exact IH|].
  by apply steps_positive_masses.
Qed.

(** X4.  With positive masses and in exact arithmetic, total momentum is the
    same after any number of steps as at the start: the gain of one body in
    a step is the loss of the others, step after step. *)
Theorem X4_momentum_constant_along_run (bodies : list (Body R)) (n : nat) :
  Forall (fun b => 0 < mass b) bodies ->
  momentum (steps n bodies) = momentum bodies.
Proof. apply momentum_steps. Qed.

Lemma X4_momentum_constant_along_run_witness :
  Forall (fun b => 0 < mass b) threeBodies /\
  momentum (steps 5 threeBodies) = momentum threeBodies.
Proof.
  assert (Hmass : Forall (fun b : Body R => 0 < mass b) threeBodies).
  { unfold threeBodies. repeat constructor; cbn [mass newBody]; lra. }
  split; [exact Hmass|].
  apply (X4_momentum_constant_along_run threeBodies 5 Hmass).
Defined.

Lemma massMoment_updateVelocities (bodies : list (Body R)) :
  massMoment (updateVelocities bodies) = massMoment bodies.
Proof.
  rewrite updateVelocities_snapshot. unfold massMoment. f_equal.
  apply list_eq. intros i.
  rewrite !list_lookup_fmap, list_lookup_imap.
  by destruct (bodies !! i).
Qed.

Lemma massMoment_move (l : list (Body R)) :
  massMoment (map updatePosition l)
  = vplus (massMoment l) (vscale dt (momentum l)).
Proof.
  unfold massMoment, momentum.
  induction l as [|b l IH]; cbn [map vsum foldr].
  - vec_ring.
  - change (foldr vplus vzero) with vsum. rewrite IH.
    change (position (updatePosition b))
      with (add (position b) (multiplyScalar (velocity b) dt)).
    change (mass (updatePosition b)) with (mass b).
    generalize (dt (num := R)); intros h.
    generalize (vsum (map (fun b0 => vscale (mass b0) (position b0)) l)).
    generalize (vsum (map (fun b0 => vscale (mass b0) (velocity b0)) l)).
    intros s1 s2. destruct (position b), (velocity b), s1, s2.
    unfold add, multiplyScalar, vplus, vscale.
    cbn [vx vy vz nadd nmul reals]. f_equal; ring.
Qed.

Lemma massMoment_updatePhysics (bodies : list (Body R)) :
  Forall (fun b => 0 < mass b) bodies ->
  massMoment (updatePhysics bodies)
  = vplus (massMoment bodies) (vscale dt (momentum bodies)).
Proof.
  intros Hmass. unfold updatePhysics.
  rewrite massMoment_move, massMoment_updateVelocities.
  by rewrite momentum_updateVelocities.
Qed.

(** X5.  With positive masses and in exact arithmetic, the centre of mass
    moves uniformly: after [n] steps the sum of mass times position has
    grown by [n * dt] times the total momentum the bodies started with,
    however the bodies pull each other about. *)
Theorem X5_centre_of_mass_moves_uniformly (bodies : list (Body R)) (n : nat) :
  Forall (fun b => 0 < mass b) bodies ->
  massMoment (steps n bodies)
  = vplus (massMoment bodies) (vscale (INR n * dt) (momentum bodies)).
Proof.
  intros Hmass. induction n as [|n IH].
  - simpl steps. simpl INR.
    generalize (massMoment bodies) (momentum bodies). intros p q.
    destruct p, q. unfold vplus, vscale. cbn [vx vy vz]. f_equal; ring.
  - simpl steps.
    rewrite massMoment_updatePhysics by (by apply steps_positive_masses).
    rewrite IH, momentum_steps by exact Hmass. rewrite S_INR.
    generalize (massMoment bodies) (momentum bodies) (dt (num := R)).
    intros p q h. destruct p, q. unfold vplus, vscale. cbn [vx vy vz].
    f_equal; ring.
Qed.

Lemma X5_centre_of_mass_moves_uniformly_witness :
  Forall (fun b => 0 < mass b) threeBodies /\
  massMoment (steps 5 threeBodies)
  = vplus (massMoment threeBodies)
          (vscale (INR 5 * dt) (momentum threeBodies)).
Proof.
  assert (Hmass : Forall (fun b : Body R => 0 < mass b) threeBodies).
  { unfold threeBodies. repeat constructor; cbn [mass newBody]; lra. }
  split; [exact Hmass|].
  apply (X5_centre_of_mass_moves_uniformly threeBodies 5 Hmass).
Defined.

Lemma far_not_tooClose (d : Vector3 R) :
  1 <= lengthSq d -> (lengthSq d [<] lit 1%Q) = false.
Proof.
  intros Hd. rewrite lit_1. cbn [nltb reals]. unfold Rltb.
  destruct (Rlt_dec (lengthSq d) 1); [lra | reflexivity].
Qed.

(** X6.  Gravity attracts: in exact arithmetic, for two bodies of positive
    mass at least one unit apart, what the force loop adds to the force on
    [a] for [b] is a positive multiple of the vector from [a] to [b]. *)
Theorem X6_force_points_to_the_other_body (bodies : list (Body R))
    (i j : nat) (a b : Body R) (totalForce : Vector3 R) :
  bodies !! j = Some b -> i <> j ->
  0 < mass a -> 0 < mass b ->
  1 <= lengthSq (subVectors (position b) (position a)) ->
  exists k, 0 < k /\
    accumulateForce bodies i a totalForce j
    = add totalForce
          (multiplyScalar (subVectors (position b) (position a)) k).
Proof.
  intros Hb Hne Hma Hmb Hfar.
  set (d := subVectors (position b) (position a)) in *.
  assert (Hs : 0 < R_sqrt.sqrt (lengthSq d)) by (apply sqrt_lt_R0; lra).
  exists (/ R_sqrt.sqrt (lengthSq d) * (G * mass a * mass b / lengthSq d)).
  split.
  - apply Rmult_lt_0_compat; [by apply Rinv_0_lt_compat|].
    apply Rdiv_lt_0_compat; [|lra].
    pose proof G_pos. apply Rmult_lt_0_compat; [|exact Hmb].
    by apply Rmult_lt_0_compat.
  - unfold accumulateForce.
    destruct (Nat.eqb_spec i j); [congruence|].
    rewrite Hb. fold d. rewrite (far_not_tooClose d Hfar).
    rewrite (normalize_exact d Hfar).
    unfold add, multiplyScalar, vscale. cbn [vx vy vz nadd nmul ndiv reals].
    f_equal; f_equal; ring.
Qed.

Lemma X6_force_points_to_the_other_body_witness :
  threeBodies !! 1%nat = Some (nthBody threeBodies 1) /\
  0%nat <> 1%nat /\
  0 < mass (nthBody threeBodies 0) /\ 0 < mass (nthBody threeBodies 1) /\
  1 <= lengthSq (subVectors (position (nthBody threeBodies 1))
                            (position (nthBody threeBodies 0))) /\
  exists k, 0 < k /\
    accumulateForce threeBodies 0 (nthBody threeBodies 0) vzero 1
    = add vzero
          (multiplyScalar (subVectors (position (nthBody threeBodies 1))
                                      (position (nthBody threeBodies 0))) k).
Proof.
  assert (Hfar : 1 <= lengthSq (subVectors (position (nthBody threeBodies 1))
                                           (position (nthBody threeBodies 0)))).
  { unfold lengthSq, subVectors, threeBodies, nthBody.
    cbn [nth position newBody vx vy vz nadd nsub nmul reals]. lra. }
  assert (Hm0 : 0 < mass (nthBody threeBodies 0))
    by (unfold threeBodies, nthBody; cbn [nth mass newBody]; lra).
  assert (Hm1 : 0 < mass (nthBody threeBodies 1))
    by (unfold threeBodies, nthBody; cbn [nth mass newBody]; lra).
  split; [reflexivity|]. split; [lia|].
  split; [exact Hm0|]. split; [exact Hm1|]. split; [exact Hfar|].
  apply (X6_force_points_to_the_other_body threeBodies 0 1
           (nthBody threeBodies 0) (nthBody threeBodies 1) vzero
           eq_refl ltac:(lia) Hm0 Hm1 Hfar).
Defined.

(** X7.  The one-unit cut-off bounds the pull of a pair: in exact arithmetic,
    whatever the positions and the masses, the force one iteration of the
    force loop adds has magnitude at most [G * mass(a) * mass(b)] (it is
    stated with the squares). *)
Theorem X7_pair_force_is_bounded (bodies : list (Body R)) (i j : nat)
    (a b : Body R) :
  bodies !! j = Some b ->
  lengthSq (accumulateForce bodies i a (mkVector3 0 0 0) j)
  <= (G * mass a * mass b) * (G * mass a * mass b).
Proof.
  intros Hb.
  assert (Hsq : 0 <= (G * mass a * mass b) * (G * mass a * mass b))
    by (apply Rle_0_sqr).
  assert (Hzero : lengthSq (mkVector3 (num := R) 0 0 0) = 0)
    by (unfold lengthSq; cbn [vx vy vz nadd nmul reals]; ring).
  unfold accumulateForce.
  destruct (i =? j)%nat; [by rewrite Hzero|].
  rewrite Hb.
  set (d := subVectors (position b) (position a)).
  destruct (lengthSq d [<] lit 1%Q) eqn:Hclose; [by rewrite Hzero|].
  assert (Hfar : 1 <= lengthSq d).
  { rewrite lit_1 in Hclose. cbn [nltb reals] in Hclose. unfold Rltb in Hclose.
    destruct (Rlt_dec (lengthSq d) 1); [discriminate | lra]. }
  rewrite (normalize_exact d Hfar).
  assert (Hs : R_sqrt.sqrt (lengthSq d) * R_sqrt.sqrt (lengthSq d) = lengthSq d)
    by (apply sqrt_sqrt; lra).
  set (A := G * mass a * mass b) in *.
  assert (Hval :
    lengthSq (add (mkVector3 0 0 0)
                  (multiplyScalar (vscale (/ R_sqrt.sqrt (lengthSq d)) d)
                                  (A / lengthSq d)))
    = A * A * (/ lengthSq d * / lengthSq d)).
  { assert (HD : lengthSq d <> 0) by lra.
    assert (HS : R_sqrt.sqrt (lengthSq d) <> 0)
      by (intros E; rewrite E in Hs; lra).
    revert Hs HD HS. generalize (R_sqrt.sqrt (lengthSq d)). intros s Hs HD HS.
    unfold lengthSq in *. destruct d as [x y z].
    unfold add, multiplyScalar, vscale in *.
    cbn [vx vy vz nadd nmul ndiv reals] in *.
    remember (x * x + y * y + z * z) as D eqn:HeqD.
    transitivity (D * (/ s * / s) * (A * A * (/ D * / D))).
    - rewrite HeqD. unfold Rdiv. ring.
    - replace (D * (/ s * / s)) with 1; [ring|].
      rewrite <- Hs. field. exact HS. }
  unfold A in Hval. cbn [ndiv nmul reals] in Hval |- *. rewrite Hval.
  fold A.
  assert (Hinv : 0 < / lengthSq d <= 1).
  { split; [apply Rinv_0_lt_compat; lra|].
    rewrite <- Rinv_1. apply Rinv_le_contravar; lra. }
  assert (Hinv2 : / lengthSq d * / lengthSq d <= 1) by nra.
  fold A in Hsq. nra.
Qed.

Lemma X7_pair_force_is_bounded_witness :
  threeBodies !! 1%nat = Some (nthBody threeBodies 1) /\
  lengthSq (accumulateForce threeBodies 0 (nthBody threeBodies 0)
              (mkVector3 0 0 0) 1)
  <= (G * mass (nthBody threeBodies 0) * mass (nthBody threeBodies 1))
     * (G * mass (nthBody threeBodies 0) * mass (nthBody threeBodies 1)).
Proof.
  split; [reflexivity|].
  apply (X7_pair_force_is_bounded threeBodies 0 1
           (nthBody threeBodies 0) (nthBody threeBodies 1) eq_refl).
Defined.

End Motion.

(* ===================================================================== *)
(** ** The random defaults *)
(* ===================================================================== *)

Section DefaultsOfTheLoop.
Context {num : Type} `{Num num}.
Variable host : Host num.

Lemma createLoop_Forall2 (Q : nat -> Body num -> Prop) ids acc :
  (forall i, Returns (createBody host i) (Q i)) ->
  Returns (createLoop host ids acc)
    (fun bodies => exists news, bodies = acc ++ news /\ Forall2 Q ids news).
Proof.
  intros HQ. revert acc. induction ids as [|i ids IH]; intros acc.
  - apply returns_ret. exists []. split; [by rewrite app_nil_r | constructor].
  - simpl. eapply returns_bind; [apply HQ|].
    intros b Hb n. destruct (IH (acc ++ [b]) n) as (news & Heq & Hall).
    exists (b :: news). split.
    + rewrite Heq. by rewrite <- app_assoc.
    + by constructor.
Qed.

Lemma createBodiesFromControls_Forall2 (Q : nat -> Body num -> Prop) n0 :
  (forall i, Returns (createBody host i) (Q i)) ->
  Forall2 Q [1; 2; 3] (createBodiesFromControls host n0).1.
Proof.
  intros HQ.
  destruct (createLoop_Forall2 Q (seq 1 3) [] HQ n0) as (news & Heq & Hall).
  unfold createBodiesFromControls. by rewrite Heq.
Qed.

(** Running a sequence of two computations. *)
Lemma bind_run {A B} (m : Rand A) (k : A -> Rand B) (n : nat) :
  bind m k n = k (m n).1 (m n).2.
Proof. unfold bind. by destruct (m n). Qed.

(** The value of [x || e]. *)
Lemma orElseM_value (x : num) (e : Rand num) (n : nat) :
  (orElseM x e n).1 = if truthy x then x else (e n).1.
Proof. unfold orElseM, ret. by destruct (truthy x). Qed.

Lemma randomDirection_draws (n : nat) :
  (randomDirection host n).2 = S (S n).
Proof. reflexivity. Qed.


(** The velocity one iteration of the loop gives its body: [nd] calls of
    [Math.random()] have been made when [randomDirection] is called. *)
Lemma createBody_velocity (i n : nat) :
  exists nd : nat,
    n <= nd /\
    velocity (createBody host i n).1
    = mkVector3
        (if truthy (field host i "velX") then field host i "velX"
         else vx (randomDirection host nd).1
              [*] (Math_random host (S (S nd)) [*] default_speed_mutiplier
                   [+] lit 0.5%Q))
        (if truthy (field host i "velY") then field host i "velY"
         else vy (randomDirection host nd).1
              [*] (Math_random host
                     (drawsAfter (S (S nd)) (field host i "velX"))
                   [*] default_speed_mutiplier [+] lit 0.5%Q))
        (if truthy (field host i "velZ") then field host i "velZ"
         else vz (randomDirection host nd).1
              [*] (Math_random host
                     (drawsAfter (drawsAfter (S (S nd)) (field host i "velX"))
                                 (field host i "velY"))
                   [*] default_speed_mutiplier [+] lit 0.5%Q)).
Proof.
  unfold createBody.
  do 3 (rewrite bind_run; cbv beta).
  match goal with
  | |- context [bind (randomDirection host) _ ?m] => set (nd := m)
  end.
  exists nd. split.
  { subst nd. unfold orElseM, ret.
    destruct (truthy (field host i "posX")), (truthy (field host i "posY")),
      (truthy (field host i "posZ")), (i =? 1), (i =? 2), (i =? 3);
      cbn; lia. }
  clearbody nd.
  repeat (rewrite bind_run; cbv beta).
  rewrite randomDirection_draws.
  set (dir := (randomDirection host nd).1).
  unfold ret, drawsAfter. cbn [fst velocity newBody]. f_equal.
  - rewrite orElseM_value.
    by destruct (truthy (field host i "velX")).
  - unfold orElseM at 2.
    destruct (truthy (field host i "velX")); cbn [snd ret];
      rewrite orElseM_value;
      by destruct (truthy (field host i "velY")).
  - unfold orElseM at 2 3.
    destruct (truthy (field host i "velX")), (truthy (field host i "velY"));
      cbn [snd ret]; rewrite orElseM_value;
      by destruct (truthy (field host i "velZ")).
Qed.

End DefaultsOfTheLoop.


(** With every field empty, and so parsed to NaN, and [Math.random()]
    answering 1/64, 2/64, ...: the three positions, in binary64. *)
Example empty_form_positions :
  map position (createBodiesFromControls PageExamples.emptyFormHost 0).1
  = [ mkVector3 (-59.6875) (-9.375) (-9.0625);
      mkVector3 42.8125 (-6.875) (-6.5625);
      mkVector3 (-4.6875) 45.625 (-4.0625) ]%float.
Proof. vm_compute. reflexivity. Qed.


(** X10.  In the arithmetic of the script, binary64 with its NaN included: a
    velocity field that parses to a number other than 0 and NaN is taken as
    it is; one that is empty, or parses to 0 or NaN, becomes the same
    coordinate of the vector that the one call of [randomDirection] made for
    this body returned, times a speed
    [Math.random() * default_speed_mutiplier + 0.5] drawn for that coordinate
    alone, after the two calls of [randomDirection] and in the order
    x, y, z. *)
Theorem X10_empty_velocity_is_randomised {num : Type} `{Num num}
    (host : Host num) (n0 : nat) :
  Forall2
    (fun i b =>
       exists nd : nat,
         let dir := (randomDirection host nd).1 in
         let speed k :=
           Math_random host k [*] default_speed_mutiplier [+] lit 0.5%Q in
         let nX := S (S nd) in
         let nY := drawsAfter nX (field host i "velX") in
         let nZ := drawsAfter nY (field host i "velY") in
         vx (velocity b)
         = (if truthy (field host i "velX") then field host i "velX"
            else vx dir [*] speed nX) /\
         vy (velocity b)
         = (if truthy (field host i "velY") then field host i "velY"
            else vy dir [*] speed nY) /\
         vz (velocity b)
         = (if truthy (field host i "velZ") then field host i "velZ"
            else vz dir [*] speed nZ))
    [1; 2; 3] (createBodiesFromControls host n0).1.
Proof.
  apply createBodiesFromControls_Forall2.
  intros i n. destruct (createBody_velocity host i n) as (nd & _ & Hv).
  exists nd. cbv zeta. rewrite Hv. cbn [vx vy vz]. auto.
Qed.

Lemma X10_empty_velocity_is_randomised_witness :
  PrimFloat.is_nan (field PageExamples.emptyFormHost 1 "velX") = true /\
  Forall2
    (fun i b =>
       exists nd : nat,
         let dir := (randomDirection PageExamples.emptyFormHost nd).1 in
         let speed k :=
           Math_random PageExamples.emptyFormHost k
           [*] default_speed_mutiplier [+] lit 0.5%Q in
         let nX := S (S nd) in
         let nY := drawsAfter nX (field PageExamples.emptyFormHost i "velX") in
         let nZ := drawsAfter nY (field PageExamples.emptyFormHost i "velY") in
         vx (velocity b)
         = (if truthy (field PageExamples.emptyFormHost i "velX")
            then field PageExamples.emptyFormHost i "velX"
            else vx dir [*] speed nX) /\
         vy (velocity b)
         = (if truthy (field PageExamples.emptyFormHost i "velY")
            then field PageExamples.emptyFormHost i "velY"
            else vy dir [*] speed nY) /\
         vz (velocity b)
         = (if truthy (field PageExamples.emptyFormHost i "velZ")
            then field PageExamples.emptyFormHost i "velZ"
            else vz dir [*] speed nZ))
    [1; 2; 3] (createBodiesFromControls PageExamples.emptyFormHost 0).1.
Proof.
  split; [vm_compute; reflexivity|].
  apply (X10_empty_velocity_is_randomised PageExamples.emptyFormHost 0).
Defined.

Module Defaults.
Import Exact Newton Gravitation Mechanics.
Local Open Scope R_scope.

Section Ranges.
Variable host : Host R.
Hypothesis random_range : forall n, 0 <= Math_random host n < 1.

Lemma randomOffset_range :
  Returns (randomOffset host) (fun x => -10 <= x < 10).
Proof.
  intros n. unfold randomOffset, bind, random, ret. cbn [fst].
  cbn [nsub nmul lit reals]. unfold Q2R. simpl.
  pose proof (random_range n). lra.
Qed.

Lemma randomSpeed_range :
  Returns (randomSpeed host) (fun s => 1 / 2 <= s < 25 / 2).
Proof.
  intros n. unfold randomSpeed, bind, random, ret, default_speed_mutiplier.
  cbn [fst]. cbn [nadd nmul lit reals]. unfold Q2R. simpl.
  pose proof (random_range n). lra.
Qed.

End Ranges.

Section Directions.
Variable host : Host R.
Hypothesis pythagoras :
  forall x, Math_sin host x * Math_sin host x
            + Math_cos host x * Math_cos host x = 1.

Lemma randomDirection_unit (n : nat) :
  lengthSq (randomDirection host n).1 = 1.
Proof.
  unfold randomDirection, bind, random, ret. cbn [fst].
  set (theta := Math_random host n [*] Math_PI host [*] lit 2%Q).
  set (phi := Math_acos host (Math_random host (S n) [*] lit 2%Q [-] lit 1%Q)).
  pose proof (pythagoras theta) as Ht. pose proof (pythagoras phi) as Hp.
  unfold lengthSq. cbn [vx vy vz nadd nmul reals].
  revert Ht Hp.
  generalize (Math_sin host theta) (Math_cos host theta)
             (Math_sin host phi) (Math_cos host phi).
  intros st ct sp cp Ht Hp.
  replace (sp * ct * (sp * ct) + sp * st * (sp * st) + cp * cp)
    with (sp * sp * (st * st + ct * ct) + cp * cp) by ring.
  rewrite Ht. lra.
Qed.

End Directions.

Lemma realHost_random_range (n : nat) : 0 <= Math_random realHost n < 1.
Proof. cbn [Math_random realHost]. lra. Qed.

Lemma realHost_pythagoras (x : R) :
  Math_sin realHost x * Math_sin realHost x
  + Math_cos realHost x * Math_cos realHost x = 1.
Proof. cbn [Math_sin Math_cos realHost]. apply sin2_cos2. Qed.

(** X9.  In exact arithmetic [randomDirection] returns a unit vector,
    whatever [Math.random()] and [Math.acos] answer, as soon as [Math.sin]
    and [Math.cos] satisfy sin^2 + cos^2 = 1. *)
Theorem X9_randomDirection_is_a_unit_vector (host : Host R) (n : nat) :
  (forall x, Math_sin host x * Math_sin host x
             + Math_cos host x * Math_cos host x = 1) ->
  lengthSq (randomDirection host n).1 = 1.
Proof. intros Htrig. by apply randomDirection_unit. Qed.

Lemma X9_randomDirection_is_a_unit_vector_witness :
  (forall x, Math_sin realHost x * Math_sin realHost x
             + Math_cos realHost x * Math_cos realHost x = 1) /\
  lengthSq (randomDirection realHost 0%nat).1 = 1.
Proof.
  split; [exact realHost_pythagoras|].
  apply (X9_randomDirection_is_a_unit_vector realHost 0%nat
           realHost_pythagoras).
Defined.

(** X15.  In exact arithmetic, with [Math.random()] in [0, 1): every value of
    [randomOffset] lies in [-10, 10) and every value of [randomSpeed] in
    [0.5, 12.5). *)
Theorem X15_ranges_of_the_random_defaults (host : Host R) (n : nat) :
  (forall k, 0 <= Math_random host k < 1) ->
  -10 <= (randomOffset host n).1 < 10 /\
  1 / 2 <= (randomSpeed host n).1 < 25 / 2.
Proof.
  intros Hrange. split.
  - apply (randomOffset_range host Hrange n).
  - apply (randomSpeed_range host Hrange n).
Qed.

Lemma X15_ranges_of_the_random_defaults_witness :
  (forall k, 0 <= Math_random realHost k < 1) /\
  -10 <= (randomOffset realHost 0%nat).1 < 10 /\
  1 / 2 <= (randomSpeed realHost 0%nat).1 < 25 / 2.
Proof.
  split; [exact realHost_random_range|].
  apply (X15_ranges_of_the_random_defaults realHost 0%nat
           realHost_random_range).
Defined.

End Defaults.

(* ===================================================================== *)
(** ** The animation loop *)
(* ===================================================================== *)

Module PageLoop.
Import App.

Section Loop.
Context {num : Type} `{Num num}.
Variable host : Host num.
Variable toStr : num -> string.

Lemma steps_updatePhysics (k : nat) (bs : list (Body num)) :
  steps k (updatePhysics bs) = updatePhysics (steps k bs).
Proof. induction k as [|k IH]; simpl; [reflexivity | by rewrite IH]. Qed.

Lemma animate_idle (st : State num) :
  callbacks st = [] -> length (bodies st) = 3 ->
  oneLoop (animate st) /\
  bodies (animate st) = updatePhysics (bodies st) /\
  form (animate st) = form st /\
  randomCalls (animate st) = randomCalls st.
Proof.
  intros Hc Hl. unfold animate, requestAnimationFrame.
  cbn [bodies form randomCalls callbacks animationFrameId lastHandle].
  rewrite Hc, Hl. cbn [Nat.ltb Nat.leb app].
  repeat split. exists (lastHandle st).
  cbn [bodies callbacks animationFrameId].
  by rewrite length_updatePhysics.
Qed.

Lemma cancelIfRunning_idle (st : State num) :
  oneLoop st \/ (callbacks st = [] /\ animationFrameId st = None) ->
  callbacks (cancelIfRunning st) = [] /\
  form (cancelIfRunning st) = form st /\
  randomCalls (cancelIfRunning st) = randomCalls st.
Proof.
  unfold cancelIfRunning. intros [(h & Hc & Hid & _) | (Hc & Hid)].
  - rewrite Hid. cbn [isRunning]. unfold cancelAnimationFrame.
    cbn [callbacks form randomCalls]. rewrite Hc. cbn [List.filter].
    by rewrite Nat.eqb_refl.
  - by rewrite Hid.
Qed.

Lemma createBodies_spec (st : State num) :
  bodies (createBodies host st)
  = (createBodiesFromControls (hostWith host (form st)) (randomCalls st)).1 /\
  callbacks (createBodies host st) = callbacks st /\
  form (createBodies host st) = form st /\
  length (bodies (createBodies host st)) = 3.
Proof.
  unfold createBodies.
  pose proof (createBodiesFromControls_fresh (hostWith host (form st))
                (randomCalls st)) as (Hlen & _).
  destruct (createBodiesFromControls (hostWith host (form st))
              (randomCalls st)) as [bs n].
  by repeat split.
Qed.

Lemma resetForm_callbacks (st : State num) :
  callbacks (resetForm host toStr st) = callbacks st.
Proof.
  unfold resetForm.
  by destruct (resetFields host toStr (form st) (randomCalls st)).
Qed.

Lemma startSimulation_spec (st : State num) :
  oneLoop st \/ (callbacks st = [] /\ animationFrameId st = None) ->
  oneLoop (startSimulation host st) /\
  bodies (startSimulation host st)
  = updatePhysics
      (createBodiesFromControls (hostWith host (form st)) (randomCalls st)).1.
Proof.
  intros Hst. destruct (cancelIfRunning_idle st Hst) as (Hc & Hf & Hn).
  destruct (createBodies_spec (cancelIfRunning st)) as (Hb & Hc' & _ & Hl).
  unfold startSimulation.
  destruct (animate_idle (createBodies host (cancelIfRunning st)))
    as (Hone & Hbodies & _); [by rewrite Hc' | exact Hl |].
  split; [exact Hone|]. by rewrite Hbodies, Hb, Hf, Hn.
Qed.

Lemma resetSimulation_oneLoop (st : State num) :
  oneLoop st \/ (callbacks st = [] /\ animationFrameId st = None) ->
  oneLoop (resetSimulation host toStr st).
Proof.
  intros Hst. destruct (cancelIfRunning_idle st Hst) as (Hc & _).
  destruct (createBodies_spec (resetForm host toStr (cancelIfRunning st)))
    as (_ & Hc' & _ & Hl).
  unfold resetSimulation.
  destruct (animate_idle
              (createBodies host (resetForm host toStr (cancelIfRunning st))))
    as (Hone & _); [by rewrite Hc', resetForm_callbacks | exact Hl |].
  exact Hone.
Qed.

Lemma frame_spec (st : State num) :
  oneLoop st ->
  oneLoop (frame st) /\ bodies (frame st) = updatePhysics (bodies st) /\
  form (frame st) = form st /\ randomCalls (frame st) = randomCalls st.
Proof.
  intros (h & Hc & _ & Hl). unfold frame. rewrite Hc. cbn [fold_left].
  destruct (animate_idle
              (mkState (bodies st) (animationFrameId st) (form st)
                       (randomCalls st) [] (lastHandle st)) eq_refl Hl)
    as (Hone & Hb & Hf & Hn).
  split; [exact Hone|]. split; [exact Hb|]. split; [exact Hf | exact Hn].
Qed.

Lemma handleEvent_oneLoop (st : State num) (e : Event) :
  oneLoop st -> oneLoop (handleEvent host toStr st e).
Proof.
  intros Hst. destruct e as [| | |id value]; cbn [handleEvent].
  - apply startSimulation_spec. by left.
  - apply resetSimulation_oneLoop. by left.
  - by apply frame_spec.
  - exact Hst.
Qed.

Lemma run_oneLoop (n0 h0 : nat) (es : list Event) :
  oneLoop (run host toStr n0 h0 es).
Proof.
  unfold run.
  assert (Hinit : oneLoop (init host toStr n0 h0)).
  { apply resetSimulation_oneLoop. right. by split. }
  revert Hinit. generalize (init host toStr n0 h0).
  induction es as [|e es IH]; intros st Hst; [exact Hst|].
  cbn [fold_left]. apply IH. by apply handleEvent_oneLoop.
Qed.

Lemma frames_steps (st : State num) (k : nat) :
  oneLoop st ->
  bodies (fold_left (handleEvent host toStr) (repeat Frame k) st)
  = steps k (bodies st).
Proof.
  revert st. induction k as [|k IH]; intros st Hst; [reflexivity|].
  cbn [repeat fold_left handleEvent].
  destruct (frame_spec st Hst) as (Hone & Hb & _).
  rewrite (IH _ Hone), Hb. by rewrite steps_updatePhysics.
Qed.

Lemma resetFields_mass (f : string -> string) (n : nat) :
  (resetFields host toStr f n).1 "b1-mass"%string = toStr default_mass /\
  (resetFields host toStr f n).1 "b2-mass"%string = toStr default_mass /\
  (resetFields host toStr f n).1 "b3-mass"%string = toStr default_mass.
Proof.
  unfold resetFields, bind, randomOffset, randomSpeed, randomDirection,
    random, ret, setValue.
  cbn [fst String.eqb Ascii.eqb Bool.eqb]. by repeat split.
Qed.

Lemma resetSimulation_masses (st : State num) :
  parseFloat host (toStr default_mass) = default_mass ->
  map mass (bodies (resetSimulation host toStr st))
  = [default_mass; default_mass; default_mass].
Proof.
  intros Hround. unfold resetSimulation.
  set (st1 := resetForm host toStr (cancelIfRunning st)).
  destruct (createBodies_spec st1) as (Hb & _ & _ & Hl).
  unfold animate, requestAnimationFrame.
  cbn [bodies form randomCalls callbacks animationFrameId lastHandle].
  rewrite Hl. cbn [Nat.ltb Nat.leb].
  transitivity (map mass (bodies (createBodies host st1))).
  { apply list_eq. intros i.
    rewrite !list_lookup_fmap, updatePhysics_lookup.
    by destruct (bodies (createBodies host st1) !! i). }
  rewrite Hb.
  destruct (createBodiesFromControls_shape (hostWith host (form st1))
              (randomCalls st1)) as (p1 & v1 & p2 & v2 & p3 & v3 & ->).
  cbn [map mass newBody]. unfold massField, field.
  cbn [parseFloat fieldValue hostWith].
  change (fieldId 1 "mass") with "b1-mass"%string.
  change (fieldId 2 "mass") with "b2-mass"%string.
  change (fieldId 3 "mass") with "b3-mass"%string.
  unfold st1, resetForm.
  destruct (resetFields_mass (form (cancelIfRunning st))
              (randomCalls (cancelIfRunning st))) as (H1 & H2 & H3).
  destruct (resetFields host toStr (form (cancelIfRunning st))
              (randomCalls (cancelIfRunning st))) as [f n].
  cbn [form fst] in *. rewrite H1, H2, H3, Hround.
  unfold orElse. by destruct (truthy default_mass).
Qed.

End Loop.

(** X11.  After the page is loaded, and whatever is clicked or typed
    afterwards and whenever, exactly one animation frame request is waiting:
    the one [animationFrameId] names (which is not 0).  Start and Reset
    cancel the running loop before they begin another, so the simulation
    never runs twice in a frame; and there are always three bodies. *)
Theorem X11_one_animation_loop {num : Type} `{Num num}
    (host : Host num) (toStr : num -> string) (n0 h0 : nat)
    (es : list Event) :
  exists h,
    callbacks (run host toStr n0 h0 es) = [h] /\
    animationFrameId (run host toStr n0 h0 es) = Some h /\
    0 < h /\
    length (bodies (run host toStr n0 h0 es)) = 3.
Proof.
  destruct (run_oneLoop host toStr n0 h0 es) as (h & Hc & Hid & Hl).
  exists (S h). repeat split; (assumption || lia).
Qed.

(** X12.  Each animation frame makes exactly one step.  When Start is
    clicked, whatever happened before, and [k] frames follow, the bodies are
    those [createBodiesFromControls] built from the form as it was at the
    click, advanced by [k + 1] steps ([animate] makes the first one at
    once); the trail drawn for each of them then has [min (k + 1) 800]
    points. *)
Theorem X12_frames_after_start {num : Type} `{Num num}
    (host : Host num) (toStr : num -> string) (n0 h0 : nat)
    (es : list Event) (k : nat) :
  bodies (run host toStr n0 h0 (es ++ ClickStart :: repeat Frame k))
  = steps (S k)
      (createBodiesFromControls
         (hostWith host (form (run host toStr n0 h0 es)))
         (randomCalls (run host toStr n0 h0 es))).1 /\
  Forall (fun b => length (drawnTrail b) = Nat.min (S k) default_trail_length)
         (bodies (run host toStr n0 h0 (es ++ ClickStart :: repeat Frame k))).
Proof.
  assert (Hbodies :
    bodies (run host toStr n0 h0 (es ++ ClickStart :: repeat Frame k))
    = steps (S k)
        (createBodiesFromControls
           (hostWith host (form (run host toStr n0 h0 es)))
           (randomCalls (run host toStr n0 h0 es))).1).
  { unfold run at 1. rewrite fold_left_app. fold (run host toStr n0 h0 es).
    cbn [fold_left handleEvent].
    destruct (startSimulation_spec host (run host toStr n0 h0 es))
      as (Hone & Hb); [left; apply run_oneLoop|].
    rewrite (frames_steps host toStr _ k Hone), Hb.
    by rewrite steps_updatePhysics. }
  split; [exact Hbodies|].
  rewrite Hbodies.
  set (created := (createBodiesFromControls
         (hostWith host (form (run host toStr n0 h0 es)))
         (randomCalls (run host toStr n0 h0 es))).1).
  destruct (createBodiesFromControls_fresh
              (hostWith host (form (run host toStr n0 h0 es)))
              (randomCalls (run host toStr n0 h0 es))) as (Hlen & Hfresh).
  fold created in Hlen, Hfresh.
  apply Forall_lookup_2. intros i b Hb.
  assert (Hi : i < length created).
  { apply lookup_lt_Some in Hb. by rewrite length_steps in Hb. }
  rewrite nthBody_lookup in Hb by (by rewrite length_steps).
  injection Hb as Hb. subst b.
  change (updatePhysics (steps k created)) with (steps (S k) created).
  rewrite (drawnTrail_steps created i (S k) Hfresh Hi).
  by rewrite length_map, length_seq.
Qed.

(** X13.  Reset gives every body the default mass, whatever the masses
    typed into the form before and whatever the state of the page: it writes
    300 into the three mass fields and reads them back; the first step, made
    at once, leaves the masses alone.  This holds as soon as the string
    written for 300 parses to 300. *)
Theorem X13_reset_restores_default_masses {num : Type} `{Num num}
    (host : Host num) (toStr : num -> string) (st : State num) :
  parseFloat host (toStr default_mass) = default_mass ->
  map mass (bodies (resetSimulation host toStr st))
  = [default_mass; default_mass; default_mass].
Proof. apply resetSimulation_masses. Qed.

Lemma X13_reset_restores_default_masses_witness :
  parseFloat (Examples.hostOf Examples.negativeMassForm)
    (PageExamples.showInteger default_mass) = default_mass /\
  map mass (bodies (resetSimulation
                      (Examples.hostOf Examples.negativeMassForm)
                      PageExamples.showInteger
                      (loaded (Examples.hostOf Examples.negativeMassForm) 0 0)))
  = [default_mass; default_mass; default_mass].
Proof.
  assert (Hround :
    parseFloat (Examples.hostOf Examples.negativeMassForm)
      (PageExamples.showInteger default_mass) = default_mass)
    by (vm_compute; reflexivity).
  split; [exact Hround|].
  apply (X13_reset_restores_default_masses
           (Examples.hostOf Examples.negativeMassForm)
           PageExamples.showInteger
           (loaded (Examples.hostOf Examples.negativeMassForm) 0 0) Hround).
Defined.

End PageLoop.

(* ===================================================================== *)
(** ** The trail does not act on the motion *)
(* ===================================================================== *)

Section TrailIsPassive.
Context {num : Type} `{Num num}.
Implicit Types (bodies : list (Body num)).

Lemma updatePhysics_motion bodies bodies' :
  map (fun b => (position b, velocity b, mass b)) bodies
  = map (fun b => (position b, velocity b, mass b)) bodies' ->
  map (fun b => (position b, velocity b, mass b)) (updatePhysics bodies)
  = map (fun b => (position b, velocity b, mass b)) (updatePhysics bodies').
Proof.
  intros Hm.
  assert (Hframe : frame <$> bodies = frame <$> bodies').
  { apply list_eq. intros i.
    pose proof (f_equal (fun l => l !! i) Hm) as Hi. cbn beta in Hi.
    rewrite !list_lookup_fmap in Hi. rewrite !list_lookup_fmap.
    destruct (bodies !! i) as [a|], (bodies' !! i) as [a'|];
      simpl in Hi |- *; try discriminate; [|reflexivity].
    injection Hi as Hp Hv Hma. unfold frame. by rewrite Hp, Hma. }
  apply list_eq. intros i.
  pose proof (f_equal (fun l => l !! i) Hm) as Hi. cbn beta in Hi.
  rewrite !list_lookup_fmap in Hi.
  rewrite !list_lookup_fmap, !updatePhysics_lookup.
  destruct (bodies !! i) as [a|], (bodies' !! i) as [a'|];
    simpl in Hi |- *; try discriminate; [|reflexivity].
  injection Hi as Hp Hv Hma.
  assert (Hvel : velocityAfter bodies i a = velocityAfter bodies' i a').
  { unfold velocityAfter.
    rewrite (totalForceOn_frame bodies bodies' i a a' Hframe)
      by (unfold frame; by rewrite Hp, Hma).
    by rewrite Hv, Hma. }
  by rewrite Hvel, Hp, Hma.
Qed.

(** X14.  The trail is only a record: two arrays of bodies with the same
    positions, velocities and masses have the same positions, velocities and
    masses after any number of steps, whatever their trail buffers hold.
    In particular the rounding made when a point is stored never reaches the
    motion. *)
Theorem X14_motion_ignores_the_trail bodies bodies' (n : nat) :
  map (fun b => (position b, velocity b, mass b)) bodies
  = map (fun b => (position b, velocity b, mass b)) bodies' ->
  map (fun b => (position b, velocity b, mass b)) (steps n bodies)
  = map (fun b => (position b, velocity b, mass b)) (steps n bodies').
Proof.
  intros Hm. induction n as [|n IH]; [exact Hm|].
  simpl steps. by apply updatePhysics_motion.
Qed.

End TrailIsPassive.

Lemma X14_motion_ignores_the_trail_witness :
  map (fun b => (position b, velocity b, mass b)) Examples.twoBodies
  = map (fun b => (position b, velocity b, mass b))
        PageExamples.twoBodiesWithOtherTrails /\
  map (fun b => (position b, velocity b, mass b))
      (steps 3 Examples.twoBodies)
  = map (fun b => (position b, velocity b, mass b))
        (steps 3 PageExamples.twoBodiesWithOtherTrails).
Proof.
  split; [reflexivity|].
  apply (X14_motion_ignores_the_trail Examples.twoBodies
           PageExamples.twoBodiesWithOtherTrails 3).
  reflexivity.
Defined.
